(** * youtube-dl-gui: the download supervisor and the options parser

    A shallow embedding of [youtube_dl_gui/DownloadObject.py] and
    [youtube_dl_gui/OptionsParser.py], and the properties of the
    specification checked against it.

    Python values are modelled as follows:
    - [str] (Python 2 byte strings) as [string];
    - [dict] as [gmap string _]; the value [None] of a key as [None : option _];
    - [list] as [list];
    - an exception as the [Raise] case of [result];
    - the attributes of an object as the fields of a record, threaded through
      the methods. *)

From Stdlib Require Import ZArith Ascii String DecimalString.
From stdpp Require Import base option list gmap strings fin_maps.

(** ** Python primitives *)

Module Py.

(** The exceptions the modelled code can raise. *)
Inductive exn : Type := IndexError | KeyError | OSError.

Inductive result (A : Type) : Type :=
| Ok (a : A)
| Raise (e : exn).
Arguments Ok {A} a.
Arguments Raise {A} e.

#[global] Instance result_ret : MRet result := λ A a, Ok a.
#[global] Instance result_bind : MBind result := λ A B f m,
  match m with
  | Ok a => f a
  | Raise e => Raise e
  end.

#[global] Instance exn_eq_dec : EqDecision exn.
Proof. solve_decision. Defined.

Definition returns {A} (r : result A) : bool :=
  match r with Ok _ => true | Raise _ => false end.

(** [l[i]], negative indices counting from the end, [IndexError] out of
    range. *)
Definition index {A} (l : list A) (i : Z) : result A :=
  let n := Z.of_nat (length l) in
  let j := if (i <? 0)%Z then (i + n)%Z else i in
  if ((j <? 0) || (n <=? j))%Z then Raise IndexError
  else match l !! Z.to_nat j with
       | Some x => Ok x
       | None => Raise IndexError
       end.

(** [d[k]] on a dict, [KeyError] when the key is absent. *)
Definition getitem {V} (d : gmap string V) (k : string) : result V :=
  match d !! k with
  | Some v => Ok v
  | None => Raise KeyError
  end.

(** [s.split(sep)] for a one-character separator: every occurrence of the
    separator splits, so consecutive separators give empty strings. *)
Fixpoint split (sep : ascii) (s : string) : list string :=
  match s with
  | EmptyString => [EmptyString]
  | String c s' =>
      if Ascii.eqb c sep then EmptyString :: split sep s'
      else match split sep s' with
           | [] => [String c EmptyString]
           | w :: ws => String c w :: ws
           end
  end.

(** [sep.join(l)]. *)
Fixpoint join (sep : string) (l : list string) : string :=
  match l with
  | [] => ""
  | [w] => w
  | w :: ws => w +:+ sep +:+ join sep ws
  end.

(** [c in s] for a character [c]. *)
Fixpoint contains (c : ascii) (s : string) : bool :=
  match s with
  | EmptyString => false
  | String a s' => Ascii.eqb a c || contains c s'
  end.

(** The characters [str.split()], [str.rstrip()] treat as whitespace:
    space, [\t], [\n], [\x0b], [\x0c], [\r]. *)
Definition isspace (c : ascii) : bool :=
  let n := nat_of_ascii c in
  (n =? 32)%nat || ((9 <=? n)%nat && (n <=? 13)%nat).

(** [s.rstrip()]. *)
Fixpoint rstrip (s : string) : string :=
  match s with
  | EmptyString => EmptyString
  | String c s' =>
      match rstrip s' with
      | EmptyString => if isspace c then EmptyString else String c EmptyString
      | r => String c r
      end
  end.

(** [s.split()]: maximal runs of non-whitespace characters. [go w s] scans
    [s] with the word [w] read so far (reversed). *)
Fixpoint split_ws_go (w : string) (s : string) : list string :=
  match s with
  | EmptyString => match w with EmptyString => [] | _ => [String.rev w] end
  | String c s' =>
      if isspace c then
        match w with
        | EmptyString => split_ws_go EmptyString s'
        | _ => String.rev w :: split_ws_go EmptyString s'
        end
      else split_ws_go (String c w) s'
  end.

Definition split_ws (s : string) : list string := split_ws_go EmptyString s.

(** [str(n)] for an integer. *)
Definition str (n : Z) : string := NilZero.string_of_int (Z.to_int n).

(** [os.path.basename] of [posixpath]: what follows the last slash. *)
Fixpoint basename (p : string) : string :=
  match p with
  | EmptyString => EmptyString
  | String c p' =>
      if contains "/" p' then basename p'
      else if Ascii.eqb c "/" then p' else p
  end.

(** Whether every character of [s] is a space, is whitespace. *)
Fixpoint only_spaces (s : string) : bool :=
  match s with
  | EmptyString => true
  | String c s' => Ascii.eqb c " " && only_spaces s'
  end.

Fixpoint only_whitespace (s : string) : bool :=
  match s with
  | EmptyString => true
  | String c s' => isspace c && only_whitespace s'
  end.

End Py.
Import Py.

(** ** DownloadObject.py *)

Module DownloadObject.

(** *** The line classifier, [extract_data] *)

(** [[string for string in stdout.split(' ') if string != '']] *)
Definition tokens (stdout : string) : list string :=
  filter (λ s, s ≠ "") (split " " stdout).

(** The branch of [extract_data] under [if header == '[download]'], on the
    tokens left after [stdout.pop(0)]. Every subscript is a [Py.index] and
    can raise. *)
Definition extract_download (stdout : list string) : result (gmap string string) :=
  let data_dictionary : gmap string string := <["status" := "Downloading"]> ∅ in
  (* Get filename *)
  s0 ← index stdout 0;
  let data_dictionary :=
    if decide (s0 = "Destination:")
    then <["filename" := join " " (drop 1 stdout)]> data_dictionary
    else data_dictionary in
  (* Get progress info *)
  s0 ← index stdout 0;
  data_dictionary ←
    (if contains "%" s0 then
       s0 ← index stdout 0;
       if decide (s0 = "100%") then
         let data_dictionary := <["speed" := ""]> data_dictionary in
         let data_dictionary := <["eta" := ""]> data_dictionary in
         Ok data_dictionary
       else
         percent ← index stdout 0;
         let data_dictionary := <["percent" := percent]> data_dictionary in
         filesize ← index stdout 2;
         let data_dictionary := <["filesize" := filesize]> data_dictionary in
         speed ← index stdout 4;
         let data_dictionary := <["speed" := speed]> data_dictionary in
         eta ← index stdout 6;
         let data_dictionary := <["eta" := eta]> data_dictionary in
         Ok data_dictionary
     else Ok data_dictionary);
  (* Get playlist info *)
  s0 ← index stdout 0;
  is_playlist ←
    (if decide (s0 = "Downloading") then
       s1 ← index stdout 1;
       Ok (bool_decide (s1 = "video"))
     else Ok false);
  data_dictionary ←
    (if is_playlist : bool then
       playlist_index ← index stdout 2;
       let data_dictionary := <["playlist_index" := playlist_index]> data_dictionary in
       playlist_size ← index stdout 4;
       let data_dictionary := <["playlist_size" := playlist_size]> data_dictionary in
       Ok data_dictionary
     else Ok data_dictionary);
  (* Get file already downloaded status *)
  last ← index stdout (-1);
  let data_dictionary :=
    if decide (last = "downloaded")
    then <["status" := "Already Downloaded"]> data_dictionary
    else data_dictionary in
  Ok data_dictionary.

Definition extract_data (stdout : string) : result (gmap string string) :=
  let data_dictionary : gmap string string := ∅ in
  let stdout := tokens stdout in
  if decide (length stdout = 0) then Ok data_dictionary
  else
    match stdout with
    | [] => Raise IndexError (* pop from an empty list *)
    | header :: stdout =>
        if decide (header = "[download]") then extract_download stdout
        else if decide (header = "[ffmpeg]") then
          Ok (<["status" := "Post Processing"]> data_dictionary)
        else
          Ok (<["status" := "Pre Processing"]> data_dictionary)
    end.

(** Whether the tokens after a ['[download]'] header include every token
    [extract_data] subscripts: one token at least; seven when the first has
    a percent sign and is not ['100%']; two when the first is
    ['Downloading'], and five when the second is then ['video']. *)
Definition indexable (stdout : list string) : bool :=
  match stdout with
  | [] => false
  | s0 :: _ =>
      (if contains "%" s0 && negb (bool_decide (s0 = "100%"))
       then bool_decide (7 ≤ length stdout) else true)
      && (if bool_decide (s0 = "Downloading")
          then bool_decide (2 ≤ length stdout)
               && (if bool_decide (stdout !! 1%nat = Some "video")
                   then bool_decide (5 ≤ length stdout) else true)
          else true)
  end.

Definition classifiable (line : string) : bool :=
  match tokens line with
  | [] => true
  | header :: stdout =>
      if decide (header = "[download]") then indexable stdout else true
  end.

(** A ['[download]'] line whose last token is ['downloaded']. *)
Definition already_line (line : string) : bool :=
  match tokens line with
  | [] => false
  | header :: stdout =>
      bool_decide (header = "[download]")
      && bool_decide (last stdout = Some "downloaded")
  end.

(** *** The supervisor object *)

(** [download()] return codes *)
Definition OK : Z := 0.
Definition ERROR : Z := 1.
Definition STOPPED : Z := 2.
Definition ALREADY : Z := 3.

(** The attributes of a [DownloadObject]. [data_hook] and [logger] record
    whether the callback is not [None]; [hooked] and [logged] are the
    arguments the two callbacks have been called with, oldest first (for
    [data_hook], the contents of [self._data] at the call). The child
    process [self._proc] is the environment of [download], see [cycle]. *)
Record t : Type := mk {
  data_hook : bool;
  logger : bool;
  _return_code : Z;
  _files_list : list string;
  _data : gmap string (option string);
  hooked : list (gmap string (option string));
  logged : list string
}.

Definition set_return_code (self : t) (rc : Z) : t :=
  mk (data_hook self) (logger self) rc (_files_list self) (_data self)
     (hooked self) (logged self).
Definition set_files_list (self : t) (l : list string) : t :=
  mk (data_hook self) (logger self) (_return_code self) l (_data self)
     (hooked self) (logged self).
Definition set_data (self : t) (d : gmap string (option string)) : t :=
  mk (data_hook self) (logger self) (_return_code self) (_files_list self) d
     (hooked self) (logged self).
Definition set_hooked (self : t) (h : list (gmap string (option string))) : t :=
  mk (data_hook self) (logger self) (_return_code self) (_files_list self)
     (_data self) h (logged self).
Definition set_logged (self : t) (l : list string) : t :=
  mk (data_hook self) (logger self) (_return_code self) (_files_list self)
     (_data self) (hooked self) l.

(** The eight keys of [self._data]. *)
Definition data_keys : list string :=
  ["playlist_index"; "playlist_size"; "filesize"; "filename";
   "percent"; "status"; "speed"; "eta"].

Definition __init__ (data_hook logger : bool) : t :=
  {| data_hook := data_hook;
     logger := logger;
     _return_code := 0;
     _files_list := [];
     _data := list_to_map
       [("playlist_index", None); ("playlist_size", None);
        ("filesize", None); ("filename", None); ("percent", None);
        ("status", None); ("speed", None); ("eta", None)];
     hooked := [];
     logged := [] |}.

Definition _add_on_files_list (self : t) (filename : string) : t :=
  set_files_list self (_files_list self ++ [filename]).

Definition _log (self : t) (data : string) : t :=
  if logger self then set_logged self (logged self ++ [data]) else self.

Definition _hook_data (self : t) : t :=
  if data_hook self then set_hooked self (hooked self ++ [_data self]) else self.

(** One turn of [for key in data] in [_update_data], with [value] the
    [data[key]] on entry. The assignments to [data[key]] only change what
    is then stored in [self._data[key]]. *)
Definition update_key (key value : string) (acc : t * bool) : t * bool :=
  let '(self, updated) := acc in
  let '(self, value) :=
    if decide (key = "filename")
    then (_add_on_files_list self value, basename value)
    else (self, value) in
  let '(self, stored) :=
    if decide (key = "status") then
      if decide (value = "Already Downloaded")
      then (set_return_code self ALREADY, None)
      else (self, Some value)
    else (self, Some value) in
  let self := set_data self (<[key := stored]> (_data self)) in
  let updated := if negb updated then true else updated in
  (self, updated).

Definition _update_data (self : t) (data : gmap string string) : t * bool :=
  map_fold update_key (self, false) data.

(** What [_update_data] stores in [self._data[key]] for [data[key] = value],
    and [self._data] after [_update_data]. *)
Definition stored (key value : string) : option string :=
  if decide (key = "filename") then Some (basename value)
  else if decide (key = "status") then
    if decide (value = "Already Downloaded") then None else Some value
  else Some value.

Definition merged (old : gmap string (option string)) (data : gmap string string)
  : gmap string (option string) :=
  union_with (λ new _, Some new) (map_imap (λ k v, Some (stored k v)) data) old.

(** [stop()]; [alive] is what [self._proc_is_alive()] returns. *)
Definition stop (alive : bool) (self : t) : t :=
  if alive then set_return_code self STOPPED else self.

(** The places of one turn of the loop of [download] where a [stop()] from
    the observer or from another thread can take effect, relative to the two
    writes of [self._return_code] in the turn: before [_update_data] (for
    instance while [_read] waits for a line), between [_update_data] and the
    test of [stderr] (for instance from [data_hook]), and after it. *)
Inductive stop_point : Type := BeforeUpdate | BeforeErrCheck | AfterErrCheck.

#[global] Instance stop_point_eq_dec : EqDecision stop_point.
Proof. solve_decision. Defined.

(** What the child process and the other threads do during one turn of the
    loop, that is, for one [self._proc_is_alive()] that returned [True]:
    the line [readline()] returns on the process's stdout, the line it
    returns on its stderr if asked, and the point where a call of [stop()]
    that finds the process alive takes effect, if there is one. *)
Record cycle : Type := mk_cycle {
  stdout_line : string;
  stderr_line : string;
  stop_at : option stop_point
}.

Definition stop_here (c : cycle) (p : stop_point) (self : t) : t :=
  if decide (stop_at c = Some p) then stop true self else self.

Definition _read (c : cycle) : string * string :=
  let stdout := rstrip (stdout_line c) in
  let stderr := if decide (stdout = "") then rstrip (stderr_line c) else "" in
  (stdout, stderr).

(** The body of the [while] loop of [download]. *)
Definition download_body (self : t) (c : cycle) : t * result () :=
  let self := stop_here c BeforeUpdate self in
  let '(stdout, stderr) := _read c in
  match extract_data stdout with
  | Raise e => (self, Raise e)
  | Ok data =>
      let '(self, updated) := _update_data self data in
      let self := if updated then _hook_data self else self in
      let self := stop_here c BeforeErrCheck self in
      let self :=
        if decide (stderr ≠ "")
        then _log (set_return_code self ERROR) stderr
        else self in
      let self := stop_here c AfterErrCheck self in
      (self, Ok ())
  end.

(** [while self._proc_is_alive(): ...; return self._return_code]: one turn
    per element of [proc], after which the process is found dead. *)
Fixpoint download_loop (self : t) (proc : list cycle) : t * result Z :=
  match proc with
  | [] => (self, Ok (_return_code self))
  | c :: proc =>
      match download_body self c with
      | (self, Ok _) => download_loop self proc
      | (self, Raise e) => (self, Raise e)
      end
  end.

(** What [download] does before the loop. The command line built from
    [url] and [options] only matters through the behaviour [proc] of the
    process it starts. *)
Definition download_start (self : t) : t := set_return_code self OK.

Definition download (self : t) (proc : list cycle) : t * result Z :=
  download_loop (download_start self) proc.

(** What one turn of the loop does to [self._return_code], read off the
    turn: the writes of [stop], [_update_data] and the test of [stderr], in
    the order they happen. *)
Definition reads_already (c : cycle) : bool := already_line (_read c).1.
Definition reads_error (c : cycle) : bool := bool_decide ((_read c).2 ≠ "").
Definition classified (c : cycle) : bool := returns (extract_data (_read c).1).

Definition stopped_at (c : cycle) (p : stop_point) : bool :=
  bool_decide (stop_at c = Some p).

Definition body_return_code (c : cycle) (rc : Z) : Z :=
  let rc := if stopped_at c BeforeUpdate then STOPPED else rc in
  let rc := if reads_already c then ALREADY else rc in
  let rc := if stopped_at c BeforeErrCheck then STOPPED else rc in
  let rc := if reads_error c then ERROR else rc in
  let rc := if stopped_at c AfterErrCheck then STOPPED else rc in
  rc.

(** No write of [ALREADY] or [ERROR] in the turn; none after the point [p]
    of the turn. *)
Definition silent (c : cycle) : bool :=
  negb (reads_already c) && negb (reads_error c).

Definition silent_after (p : stop_point) (c : cycle) : bool :=
  match p with
  | BeforeUpdate => silent c
  | BeforeErrCheck => negb (reads_error c)
  | AfterErrCheck => true
  end.

(** No [stop()] takes effect after [_update_data] in the turn; no [stop()]
    and no text on stderr in the turn. *)
Definition unstopped_after_update (c : cycle) : bool :=
  negb (stopped_at c BeforeErrCheck) && negb (stopped_at c AfterErrCheck).

Definition undisturbed (c : cycle) : bool :=
  bool_decide (stop_at c = None) && negb (reads_error c).

(** The turns in which [_read] returns a line of stdout that is not empty. *)
Definition nonblank (c : cycle) : bool := bool_decide ((_read c).1 ≠ "").

(** *** [clear_dash] *)

(** The file system: the paths that exist, each with whether [os.remove]
    succeeds on it (it fails with [OSError] on a directory, a file in a
    read-only directory, a file in use on Windows). *)
Definition os_path_exists (fs : gmap string bool) (p : string) : bool :=
  bool_decide (is_Some (fs !! p)).

Definition os_remove (fs : gmap string bool) (p : string) : result (gmap string bool) :=
  match fs !! p with
  | Some true => Ok (delete p fs)
  | _ => Raise OSError
  end.

Fixpoint clear_dash_loop (files : list string) (fs : gmap string bool)
  : gmap string bool * result () :=
  match files with
  | [] => (fs, Ok ())
  | dash_file :: files =>
      if os_path_exists fs dash_file then
        match os_remove fs dash_file with
        | Ok fs => clear_dash_loop files fs
        | Raise e => (fs, Raise e)
        end
      else clear_dash_loop files fs
  end.

Definition clear_dash (self : t) (fs : gmap string bool) : gmap string bool * result () :=
  clear_dash_loop (_files_list self) fs.

(** The file system after removing the paths of [files]. *)
Definition removed (files : list string) (fs : gmap string bool) : gmap string bool :=
  foldl (λ fs p, delete p fs) fs files.

(** [_get_cmd]; [nt] is [os.name == 'nt'], and [youtubedl_path] the
    attribute of that name. *)
Definition _get_cmd (nt : bool) (youtubedl_path url : string) (options : list string)
  : list string :=
  if nt then [youtubedl_path] ++ options ++ [url]
  else ["python"; youtubedl_path] ++ options ++ [url].

End DownloadObject.
Import DownloadObject.

(** ** OptionsParser.py *)

Module OptionsParser.

Definition SUBS_LANG : gmap string string :=
  list_to_map
    [("English", "en"); ("Greek", "gr"); ("Portuguese", "pt"); ("French", "fr");
     ("Italian", "it"); ("Russian", "ru"); ("Spanish", "es"); ("German", "de")].

Definition VIDEO_FORMATS : gmap string string :=
  list_to_map
    [("default", "0"); ("mp4 [1280x720]", "22"); ("mp4 [640x360]", "18");
     ("webm [640x360]", "43"); ("flv [400x240]", "5"); ("3gp [320x240]", "36");
     ("mp4 1080p(DASH)", "137"); ("mp4 720p(DASH)", "136");
     ("mp4 480p(DASH)", "135"); ("mp4 360p(DASH)", "134")].

Definition DASH_AUDIO_FORMATS : gmap string string :=
  list_to_map
    [("none", "none"); ("DASH m4a audio 128k", "140");
     ("DASH webm audio 48k", "171")].

Definition AUDIO_QUALITY : gmap string string :=
  list_to_map [("high", "0"); ("mid", "5"); ("low", "9")].

(** The keys of [OptionsManager.options] the parser reads, with the types
    the parser uses them at. *)
Record options : Type := {
  save_path : string;
  output_format : string;
  output_template : string;
  restrict_filenames : bool;
  username : string;
  password : string;
  video_password : string;
  retries : Z;
  proxy : string;
  user_agent : string;
  referer : string;
  video_format : string;
  dash_audio_format : string;
  playlist_start : Z;
  playlist_end : Z;
  max_downloads : Z;
  ignore_errors : bool;
  write_description : bool;
  write_info : bool;
  write_thumbnail : bool;
  min_filesize : string;
  max_filesize : string;
  write_all_subs : bool;
  write_auto_subs : bool;
  write_subs : bool;
  subs_lang : string;
  embed_subs : bool;
  to_audio : bool;
  audio_format : string;
  audio_quality : string;
  keep_video : bool;
  cmd_args : string
}.

(** A method of [OptionsParser]: it reads and extends [self.options_list]
    and returns or raises. *)
Record method (A : Type) : Type := Method {
  run : list string → list string * result A
}.
Arguments Method {A} run.
Arguments run {A} m l.

#[global] Instance method_ret : MRet method := λ A a, Method (λ l, (l, Ok a)).
#[global] Instance method_bind : MBind method := λ A B f m,
  Method (λ l,
    match run m l with
    | (l', Ok a) => run (f a) l'
    | (l', Raise e) => (l', Raise e)
    end).

(** [self.options_list.append(s)] *)
Definition append (s : string) : method () := Method (λ l, (l ++ [s], Ok ())).
(** [self.options_list] *)
Definition options_list : method (list string) := Method (λ l, (l, Ok l)).
(** An expression that can raise. *)
Definition eval {A} (r : result A) : method A := Method (λ l, (l, r)).
(** [if b: body] *)
Definition when (b : bool) (body : method ()) : method () :=
  if b then body else mret ().
(** [for x in xs: body] *)
Fixpoint for_each {A} (xs : list A) (body : A → method ()) : method () :=
  match xs with
  | [] => mret ()
  | x :: xs => body x ;; for_each xs body
  end.

Section Parser.

(** [utils.fix_path] and [utils.is_dash], which the parser imports. *)
Variable fix_path : string → string.
Variable is_dash : string → bool.

Variable _options : options.

Definition _set_progress_options : method () :=
  append "--newline".

Definition _set_playlist_options : method () :=
  when (bool_decide (playlist_start _options ≠ 1%Z))
    (append "--playlist-start" ;;
     append (str (playlist_start _options))) ;;
  when (bool_decide (playlist_end _options ≠ 0%Z))
    (append "--playlist-end" ;;
     append (str (playlist_end _options))) ;;
  when (bool_decide (max_downloads _options ≠ 0%Z))
    (append "--max-downloads" ;;
     append (str (max_downloads _options))).

Definition _set_auth_options : method () :=
  when (bool_decide (username _options ≠ ""))
    (append "-u" ;;
     append (username _options)) ;;
  when (bool_decide (password _options ≠ ""))
    (append "-p" ;;
     append (password _options)) ;;
  when (bool_decide (video_password _options ≠ ""))
    (append "--video-password" ;;
     append (video_password _options)).

Definition _set_connection_options : method () :=
  when (bool_decide (retries _options ≠ 10%Z))
    (append "-R" ;;
     append (str (retries _options))) ;;
  when (bool_decide (proxy _options ≠ ""))
    (append "--proxy" ;;
     append (proxy _options)) ;;
  when (bool_decide (user_agent _options ≠ ""))
    (append "--user-agent" ;;
     append (user_agent _options)) ;;
  when (bool_decide (referer _options ≠ ""))
    (append "--referer" ;;
     append (referer _options)).

Definition _set_video_options : method () :=
  when (bool_decide (video_format _options ≠ "default"))
    (append "-f" ;;
     video_format ← eval (getitem VIDEO_FORMATS (video_format _options));
     video_format ←
       (if is_dash (OptionsParser.video_format _options) then
          if is_dash (dash_audio_format _options) then
            dash_format ← eval (getitem DASH_AUDIO_FORMATS (dash_audio_format _options));
            mret (video_format +:+ ("+" +:+ dash_format))
          else mret video_format
        else mret video_format);
     append video_format).

Definition _set_filesystem_options : method () :=
  when (ignore_errors _options) (append "-i") ;;
  when (write_description _options) (append "--write-description") ;;
  when (write_info _options) (append "--write-info-json") ;;
  when (write_thumbnail _options) (append "--write-thumbnail") ;;
  when (bool_decide (min_filesize _options ≠ "0"))
    (append "--min-filesize" ;;
     append (min_filesize _options)) ;;
  when (bool_decide (max_filesize _options ≠ "0"))
    (append "--max-filesize" ;;
     append (max_filesize _options)).

Definition _set_subtitles_options : method () :=
  when (write_all_subs _options) (append "--all-subs") ;;
  when (write_auto_subs _options) (append "--write-auto-sub") ;;
  when (write_subs _options)
    (append "--write-sub" ;;
     append "--sub-lang" ;;
     lang ← eval (getitem SUBS_LANG (subs_lang _options));
     append lang) ;;
  when (embed_subs _options) (append "--embed-subs").

Definition _set_output_options : method () :=
  let save_path := fix_path (save_path _options) in
  append "-o" ;;
  (if decide (output_format _options = "id") then
     append (save_path +:+ "%(id)s.%(ext)s")
   else if decide (output_format _options = "title") then
     append (save_path +:+ "%(title)s.%(ext)s")
   else if decide (output_format _options = "custom") then
     append (save_path +:+ output_template _options)
   else mret ()) ;;
  when (restrict_filenames _options) (append "--restrict-filenames").

Definition _set_audio_options : method () :=
  when (to_audio _options)
    (append "-x" ;;
     append "--audio-format" ;;
     append (audio_format _options) ;;
     when (bool_decide (audio_quality _options ≠ "mid"))
       (append "--audio-quality" ;;
        quality ← eval (getitem AUDIO_QUALITY (audio_quality _options));
        append quality) ;;
     when (keep_video _options) (append "-k")).

Definition _set_other_options : method () :=
  when (bool_decide (cmd_args _options ≠ ""))
    (for_each (split_ws (cmd_args _options)) (λ option, append option)).

Definition parse : method (list string) :=
  _set_progress_options ;;
  _set_output_options ;;
  _set_auth_options ;;
  _set_connection_options ;;
  _set_video_options ;;
  _set_playlist_options ;;
  _set_filesystem_options ;;
  _set_subtitles_options ;;
  _set_audio_options ;;
  _set_other_options ;;
  options_list.

End Parser.

(** [OptionsParser(opt_manager).parse()]: [__init__] sets
    [self.options_list = []]. *)
Definition parse_fresh (fix_path : string → string) (is_dash : string → bool)
    (_options : options) : result (list string) :=
  (run (parse fix_path is_dash _options) []).2.

(** The configuration with every option at its default. *)
Definition defaults : options :=
  {| save_path := "/home/user"; output_format := "title"; output_template := "";
     restrict_filenames := false; username := ""; password := "";
     video_password := ""; retries := 10; proxy := ""; user_agent := "";
     referer := ""; video_format := "default"; dash_audio_format := "none";
     playlist_start := 1; playlist_end := 0; max_downloads := 0;
     ignore_errors := false; write_description := false; write_info := false;
     write_thumbnail := false; min_filesize := "0"; max_filesize := "0";
     write_all_subs := false; write_auto_subs := false; write_subs := false;
     subs_lang := "English"; embed_subs := false; to_audio := false;
     audio_format := "mp3"; audio_quality := "mid"; keep_video := false;
     cmd_args := "" |}.

(** What a method does to [self.options_list]: [emits m (Ok args)] when it
    appends [args] and returns, [emits m (Raise e)] when it raises [e];
    [returns_list], for the method that returns the list at the end. *)
Definition emits (m : method ()) (r : result (list string)) : Prop :=
  ∀ l, match r with
       | Ok args => run m l = (l ++ args, Ok ())
       | Raise e => (run m l).2 = Raise e
       end.

Definition returns_list (m : method (list string)) (r : result (list string)) : Prop :=
  ∀ l, (run m l).2 = (args ← r; Ok (l ++ args)).

End OptionsParser.

(** ** The argument builder as the specification words it

    The ten emission steps of the argument builder, each the concatenation of
    its flags in order, a conditional flag being the flag (and its value)
    when its guard holds and nothing otherwise. This is the reference the
    method-by-method appends of [OptionsParser.parse] are compared with. *)

Module ArgumentBuilder.
Import OptionsParser.

(** A conditionally emitted flag: present iff its guard holds. *)
Definition emit_if (guard : bool) (args : list string) : list string :=
  if guard then args else [].

Section Build.

Variable fix_path : string → string.
Variable is_dash : string → bool.
Variable config : options.

Definition progress : list string := ["--newline"].

Definition template : list string :=
  if decide (output_format config = "id")
  then [fix_path (save_path config) +:+ "%(id)s.%(ext)s"]
  else if decide (output_format config = "title")
  then [fix_path (save_path config) +:+ "%(title)s.%(ext)s"]
  else if decide (output_format config = "custom")
  then [fix_path (save_path config) +:+ output_template config]
  else [].

Definition output : list string :=
  ["-o"] ++ template
  ++ emit_if (restrict_filenames config) ["--restrict-filenames"].

Definition auth : list string :=
  emit_if (bool_decide (username config ≠ "")) ["-u"; username config]
  ++ emit_if (bool_decide (password config ≠ "")) ["-p"; password config]
  ++ emit_if (bool_decide (video_password config ≠ ""))
       ["--video-password"; video_password config].

Definition connection : list string :=
  emit_if (bool_decide (retries config ≠ 10%Z)) ["-R"; str (retries config)]
  ++ emit_if (bool_decide (proxy config ≠ "")) ["--proxy"; proxy config]
  ++ emit_if (bool_decide (user_agent config ≠ ""))
       ["--user-agent"; user_agent config]
  ++ emit_if (bool_decide (referer config ≠ "")) ["--referer"; referer config].

(** The format code: [<video_code>+<audio_code>] for a DASH video with a
    DASH audio track, the video code otherwise. *)
Definition format_code : result string :=
  video_code ← getitem VIDEO_FORMATS (video_format config);
  if is_dash (video_format config) && is_dash (dash_audio_format config) then
    audio_code ← getitem DASH_AUDIO_FORMATS (dash_audio_format config);
    Ok (video_code +:+ "+" +:+ audio_code)
  else Ok video_code.

Definition video : result (list string) :=
  if bool_decide (video_format config ≠ "default") then
    code ← format_code; Ok ["-f"; code]
  else Ok [].

Definition playlist : list string :=
  emit_if (bool_decide (playlist_start config ≠ 1%Z))
    ["--playlist-start"; str (playlist_start config)]
  ++ emit_if (bool_decide (playlist_end config ≠ 0%Z))
       ["--playlist-end"; str (playlist_end config)]
  ++ emit_if (bool_decide (max_downloads config ≠ 0%Z))
       ["--max-downloads"; str (max_downloads config)].

Definition filesystem : list string :=
  emit_if (ignore_errors config) ["-i"]
  ++ emit_if (write_description config) ["--write-description"]
  ++ emit_if (write_info config) ["--write-info-json"]
  ++ emit_if (write_thumbnail config) ["--write-thumbnail"]
  ++ emit_if (bool_decide (min_filesize config ≠ "0"))
       ["--min-filesize"; min_filesize config]
  ++ emit_if (bool_decide (max_filesize config ≠ "0"))
       ["--max-filesize"; max_filesize config].

Definition subtitles : result (list string) :=
  lang ← (if write_subs config
          then code ← getitem SUBS_LANG (subs_lang config);
               Ok ["--write-sub"; "--sub-lang"; code]
          else Ok []);
  Ok (emit_if (write_all_subs config) ["--all-subs"]
      ++ emit_if (write_auto_subs config) ["--write-auto-sub"]
      ++ lang
      ++ emit_if (embed_subs config) ["--embed-subs"]).

Definition audio : result (list string) :=
  if to_audio config then
    quality ← (if bool_decide (audio_quality config ≠ "mid")
               then code ← getitem AUDIO_QUALITY (audio_quality config);
                    Ok ["--audio-quality"; code]
               else Ok []);
    Ok (["-x"; "--audio-format"; audio_format config]
        ++ quality
        ++ emit_if (keep_video config) ["-k"])
  else Ok [].

Definition extra : list string := split_ws (cmd_args config).

(** Steps 1 to 10, in this order. A failed table lookup is an error of
    the whole build. *)
Definition build : result (list string) :=
  video ← video;
  subtitles ← subtitles;
  audio ← audio;
  Ok (progress ++ output ++ auth ++ connection ++ video ++ playlist
      ++ filesystem ++ subtitles ++ audio ++ extra).

End Build.

(** Every optional field at the value that makes the builder emit nothing
    for it. *)
Definition at_defaults (o : options) : Prop :=
  restrict_filenames o = false ∧ username o = "" ∧ password o = ""
  ∧ video_password o = "" ∧ retries o = 10%Z ∧ proxy o = ""
  ∧ user_agent o = "" ∧ referer o = "" ∧ video_format o = "default"
  ∧ playlist_start o = 1%Z ∧ playlist_end o = 0%Z ∧ max_downloads o = 0%Z
  ∧ ignore_errors o = false ∧ write_description o = false
  ∧ write_info o = false ∧ write_thumbnail o = false
  ∧ min_filesize o = "0" ∧ max_filesize o = "0"
  ∧ write_all_subs o = false ∧ write_auto_subs o = false
  ∧ write_subs o = false ∧ embed_subs o = false ∧ to_audio o = false
  ∧ cmd_args o = "".

(** Whether every name the builder looks up is in its table. *)
Definition lookups_succeed (is_dash : string → bool) (o : options) : bool :=
  (if bool_decide (video_format o ≠ "default") then
     bool_decide (is_Some (VIDEO_FORMATS !! video_format o))
     && (if is_dash (video_format o) && is_dash (dash_audio_format o)
         then bool_decide (is_Some (DASH_AUDIO_FORMATS !! dash_audio_format o))
         else true)
   else true)
  && (if write_subs o then bool_decide (is_Some (SUBS_LANG !! subs_lang o)) else true)
  && (if to_audio o && bool_decide (audio_quality o ≠ "mid")
      then bool_decide (is_Some (AUDIO_QUALITY !! audio_quality o)) else true).

End ArgumentBuilder.

(** * Properties *)

Import OptionsParser.

(** ** Running the model on the examples of the specification *)

Example split_spaces : split " " "a  b " = ["a"; ""; "b"; ""].
Proof. reflexivity. Qed.

Example split_empty : split " " "" = [""].
Proof. reflexivity. Qed.

Example split_ws_ex :
  split_ws ("  -v" +:+ String (ascii_of_nat 9) "--x  y ") = ["-v"; "--x"; "y"].
Proof. reflexivity. Qed.

Example rstrip_ex : rstrip (" a b " +:+ String (ascii_of_nat 9) " ") = " a b".
Proof. reflexivity. Qed.

Example basename_ex : basename "/tmp/movie.mp4" = "movie.mp4".
Proof. reflexivity. Qed.

Example str_ex : (str 0, str 25, str (-3)) = ("0", "25", "-3").
Proof. reflexivity. Qed.

Example index_ex : (index ["a"; "b"] (-1), index ["a"; "b"] 2) = (Ok "b", Raise IndexError).
Proof. reflexivity. Qed.

Example ed1 : extract_data "[download]  42.0% of 10.00MiB at 1.20MiB/s ETA 00:10"
  = Ok (<["eta":="00:10"]> (<["speed":="1.20MiB/s"]> (<["filesize":="10.00MiB"]>
        (<["percent":="42.0%"]> (<["status":="Downloading"]> ∅))))).
Proof. vm_compute. reflexivity. Qed.

Example ed2 : extract_data "[download]" = Raise IndexError.
Proof. vm_compute. reflexivity. Qed.

Example ed3 : extract_data "[download] Destination: /tmp/my movie.mp4"
  = Ok (<["filename":="/tmp/my movie.mp4"]> (<["status":="Downloading"]> ∅)).
Proof. vm_compute. reflexivity. Qed.

Example ud1 :
  let '(self, updated) :=
    _update_data (__init__ true true)
      (<["filename":="/tmp/movie.mp4"]> (<["status":="Downloading"]> ∅)) in
  (_files_list self, _data self !! "filename", _data self !! "status", updated)
  = (["/tmp/movie.mp4"], Some (Some "movie.mp4"), Some (Some "Downloading"), true).
Proof. vm_compute. reflexivity. Qed.

Example dl1 :
  (download (__init__ true true)
     [mk_cycle "[download] a.mp4 has already been downloaded" "" None;
      mk_cycle "" "ERROR: unable to download video" None]).2 = Ok ERROR.
Proof. vm_compute. reflexivity. Qed.

Example parse_defaults :
  parse_fresh (λ p, p +:+ "/") (λ _, false) defaults
  = Ok ["--newline"; "-o"; "/home/user/%(title)s.%(ext)s"].
Proof. vm_compute. reflexivity. Qed.

(** ** Characters, tokens and right-stripped lines *)

Section Strings.

Lemma split_not_nil sep s : split sep s ≠ [].
Proof.
  destruct s as [|c s]; simpl; [done|].
  destruct (Ascii.eqb c sep); [done|]. by destruct (split sep s).
Qed.

Lemma tokens_cons_space s : tokens (String " " s) = tokens s.
Proof. unfold tokens. simpl. by rewrite filter_cons_False by (intros H; by apply H). Qed.

Lemma tokens_cons_other c s :
  Ascii.eqb c " " = false → tokens (String c s) ≠ [].
Proof.
  intros Hc. unfold tokens. simpl. rewrite Hc.
  destruct (split " " s) as [|w ws]; by rewrite filter_cons_True.
Qed.

Lemma tokens_nil_iff s : tokens s = [] ↔ only_spaces s = true.
Proof.
  induction s as [|c s IH]; simpl.
  - by split.
  - destruct (Ascii.eqb c " ") eqn:Hc.
    + apply Ascii.eqb_eq in Hc as ->. by rewrite tokens_cons_space.
    + split; [|done]. intros H. by apply tokens_cons_other in H.
Qed.

Lemma isspace_space c : Ascii.eqb c " " = true → isspace c = true.
Proof. by intros ->%Ascii.eqb_eq. Qed.

(** A right-stripped line that is not empty has a character that is not
    whitespace, hence a token. *)
Lemma rstrip_only_spaces s : only_spaces (rstrip s) = true → rstrip s = "".
Proof.
  induction s as [|c s IH]; simpl; [done|].
  destruct (rstrip s) as [|c' r] eqn:Hr.
  - destruct (isspace c) eqn:Hc; [done|]. simpl.
    destruct (Ascii.eqb c " ") eqn:Hc'; [|done].
    apply isspace_space in Hc'. congruence.
  - simpl. destruct (Ascii.eqb c " "); [|done]. intros H.
    by specialize (IH H).
Qed.

Lemma tokens_rstrip_nil s : tokens (rstrip s) = [] ↔ rstrip s = "".
Proof.
  rewrite tokens_nil_iff. split; [apply rstrip_only_spaces|].
  by intros ->.
Qed.

Lemma rstrip_whitespace s : only_whitespace s = true → rstrip s = "".
Proof.
  induction s as [|c s IH]; simpl; [done|].
  intros [Hc Hs]%andb_prop. by rewrite (IH Hs), Hc.
Qed.

End Strings.

(** ** The line classifier *)

Section Classifier.

Lemma index_nat {A} (l : list A) (i : nat) :
  index l (Z.of_nat i) = match l !! i with Some x => Ok x | None => Raise IndexError end.
Proof.
  unfold index. cbv zeta.
  assert (Hlt : (Z.of_nat i <? 0)%Z = false) by (apply Z.ltb_ge; lia).
  rewrite Hlt. cbv iota. rewrite Hlt. cbn [orb]. rewrite Nat2Z.id.
  destruct (Z.leb_spec (Z.of_nat (length l)) (Z.of_nat i)); [|done].
  by rewrite lookup_ge_None_2 by lia.
Qed.

Lemma index_last {A} (l : list A) :
  index l (-1) = match last l with Some x => Ok x | None => Raise IndexError end.
Proof.
  unfold index. cbv zeta. rewrite last_lookup.
  destruct l as [|x l]; [done|].
  change (-1 <? 0)%Z with true. cbv iota.
  assert (Hlt : (-1 + Z.of_nat (length (x :: l)) <? 0)%Z = false) by (apply Z.ltb_ge; simpl; lia).
  assert (Hle : (Z.of_nat (length (x :: l)) <=? -1 + Z.of_nat (length (x :: l)))%Z = false) by (apply Z.leb_gt; lia).
  rewrite Hlt, Hle. cbn [orb].
  replace (Z.to_nat _) with (length l) by (simpl; lia). done.
Qed.

Ltac index_lookup :=
  change 0%Z with (Z.of_nat 0); change 1%Z with (Z.of_nat 1);
  change 2%Z with (Z.of_nat 2); change 4%Z with (Z.of_nat 4);
  change 6%Z with (Z.of_nat 6);
  rewrite ?index_nat, ?index_last.

Lemma last_cons_is_Some {A} (x : A) l : ∃ y, last (x :: l) = Some y.
Proof. apply (proj2 (last_is_Some (x :: l))). done. Qed.

Ltac bd P :=
  first [ rewrite !(bool_decide_eq_true_2 P) by done
        | rewrite !(bool_decide_eq_false_2 P) by done
        | idtac ].

Ltac ed_cases s0 :=
  destruct (decide (s0 = "Destination:")) as [?|?];
  destruct (contains "%" s0) eqn:?;
  destruct (decide (s0 = "100%")) as [?|?];
  destruct (decide (s0 = "Downloading")) as [?|?];
  bd (s0 = "100%"); bd (s0 = "Downloading");
  simplify_eq; try discriminate.

Ltac ed_cons s0 rest y :=
  unfold extract_download; index_lookup;
  let Hy := fresh in
  destruct (last_cons_is_Some s0 rest) as [y Hy]; rewrite ?Hy;
  cbn [lookup list_lookup mbind result_bind];
  ed_cases s0;
  cbn [lookup list_lookup mbind result_bind returns length andb negb].

Ltac ed_start stdout s0 rest y :=
  destruct stdout as [|s0 rest];
  [unfold extract_download; index_lookup;
   cbn [lookup list_lookup mbind result_bind returns]
  |ed_cons s0 rest y].

Ltac ed_tokens rest :=
  destruct rest as [|?s1 [|?s2 [|?s3 [|?s4 [|?s5 [|?s6 rest]]]]]];
  cbn [lookup list_lookup mbind result_bind returns length andb negb].

Lemma extract_download_returns stdout :
  returns (extract_download stdout) = indexable stdout.
Proof.
  unfold indexable. ed_start stdout s0 rest y; try done.
  - ed_tokens rest; by repeat case_bool_decide; try lia.
  - ed_tokens rest; repeat case_bool_decide; simplify_eq/=; try done; try lia.
Qed.

Lemma extract_download_raises stdout e :
  extract_download stdout = Raise e → e = IndexError.
Proof.
  ed_start stdout s0 rest y; [by intros [= <-]|..]; try done.
  - ed_tokens rest; by try intros [= <-].
  - ed_tokens rest; repeat case_bool_decide; simplify_eq/=; by try intros [= <-].
Qed.

Ltac ed_result :=
  repeat case_bool_decide; cbn [mbind result_bind];
  first [ discriminate | intros [= <-] ];
  repeat case_decide; simplify_eq; try done.

Lemma extract_download_status stdout d :
  extract_download stdout = Ok d →
  d !! "status" =
    Some (if decide (last stdout = Some "downloaded")
          then "Already Downloaded" else "Downloading").
Proof.
  ed_start stdout s0 rest y; [done|..].
  1,2,5: by ed_result.
  - ed_tokens rest; by ed_result.
  - ed_tokens rest; by ed_result.
Qed.

Lemma extract_download_percent s0 rest :
  contains "%" s0 = true →
  if decide (s0 = "100%") then
    ∃ d, extract_download (s0 :: rest) = Ok d
         ∧ d !! "speed" = Some "" ∧ d !! "eta" = Some ""
         ∧ d !! "percent" = None ∧ d !! "filesize" = None
  else
    match (s0 :: rest) !! 2%nat, (s0 :: rest) !! 4%nat, (s0 :: rest) !! 6%nat with
    | Some filesize, Some speed, Some eta =>
        ∃ d, extract_download (s0 :: rest) = Ok d
             ∧ d !! "percent" = Some s0 ∧ d !! "filesize" = Some filesize
             ∧ d !! "speed" = Some speed ∧ d !! "eta" = Some eta
    | _, _, _ => extract_download (s0 :: rest) = Raise IndexError
    end.
Proof.
  intros Hpct. ed_cons s0 rest y.
  - eexists. split; [done|].
    by repeat case_decide.
  - ed_tokens rest; try done. eexists. split; [done|]. by repeat case_decide.
Qed.

Lemma extract_data_tokens line :
  extract_data line =
    match tokens line with
    | [] => Ok ∅
    | header :: stdout =>
        if decide (header = "[download]") then extract_download stdout
        else if decide (header = "[ffmpeg]")
        then Ok (<["status" := "Post Processing"]> ∅)
        else Ok (<["status" := "Pre Processing"]> ∅)
    end.
Proof. unfold extract_data. by destruct (tokens line). Qed.

Lemma extract_data_blank line :
  only_spaces line = true → extract_data line = Ok ∅.
Proof.
  intros H%tokens_nil_iff. by rewrite extract_data_tokens, H.
Qed.

Lemma extract_data_status line d :
  extract_data line = Ok d →
  d !! "status" =
    match tokens line with
    | [] => None
    | header :: stdout =>
        Some (if decide (header = "[download]") then
                if decide (last stdout = Some "downloaded")
                then "Already Downloaded" else "Downloading"
              else if decide (header = "[ffmpeg]") then "Post Processing"
              else "Pre Processing")
    end.
Proof.
  rewrite extract_data_tokens. destruct (tokens line) as [|header stdout].
  - by intros [= <-].
  - repeat case_decide; try by intros [= <-].
    all: intros Hd%extract_download_status; rewrite Hd; by repeat case_decide.
Qed.

Lemma extract_data_already line d :
  extract_data line = Ok d →
  bool_decide (d !! "status" = Some "Already Downloaded") = already_line line.
Proof.
  intros H%extract_data_status. rewrite H. unfold already_line.
  destruct (tokens line) as [|header stdout]; [done|].
  repeat case_decide; repeat case_bool_decide; simplify_eq/=; done.
Qed.

Lemma extract_data_empty_iff line d :
  extract_data line = Ok d → d = ∅ ↔ tokens line = [].
Proof.
  intros H. pose proof (extract_data_status _ _ H) as Hs. split.
  - intros ->. rewrite lookup_empty in Hs. by destruct (tokens line).
  - intros Ht. rewrite extract_data_tokens, Ht in H. by injection H.
Qed.

(** C8 (as amended). [extract_data] on the empty line or on a line of
    space characters only returns the empty event, and the empty event is a
    no-op on merge: [_update_data] leaves the object as it is and returns
    [False]. *)
Theorem blank_line_empty_event line :
  only_spaces line = true →
  extract_data line = Ok ∅
  ∧ ∀ self, _update_data self ∅ = (self, false).
Proof.
  intros H. split; [by apply extract_data_blank|].
  intros self. unfold _update_data. apply map_fold_empty.
Qed.

Lemma blank_line_empty_event_witness :
  extract_data "   " = Ok ∅ ∧ ∀ self, _update_data self ∅ = (self, false).
Proof. apply (blank_line_empty_event "   "). reflexivity. Defined.

(** C8, counterexample. A line made of one tab is all whitespace, and
    since only the space character separates tokens it is classified as
    ['Pre Processing'], not as the empty event. *)
Lemma tab_line_not_empty_event :
  only_whitespace (String (ascii_of_nat 9) "") = true
  ∧ extract_data (String (ascii_of_nat 9) "")
    = Ok (<["status" := "Pre Processing"]> ∅).
Proof. split; vm_compute; reflexivity. Qed.

(** Inside [download] a line is right-stripped before it is classified, so
    there a line of whitespace does give the empty event. *)
Lemma whitespace_line_after_rstrip line :
  only_whitespace line = true → extract_data (rstrip line) = Ok ∅.
Proof. intros H. by rewrite rstrip_whitespace. Qed.

(** C1 (as amended). [extract_data] returns an event exactly on the lines
    that hold every token it subscripts ([classifiable]); on any other line
    it raises [IndexError]: no sub-extraction is skipped. *)
Theorem extract_data_returns_iff_classifiable line :
  if classifiable line then ∃ d, extract_data line = Ok d
  else extract_data line = Raise IndexError.
Proof.
  unfold classifiable. rewrite extract_data_tokens.
  destruct (tokens line) as [|header stdout]; [by eexists|].
  destruct (decide (header = "[download]")).
  - pose proof (extract_download_returns stdout) as Hr.
    destruct (extract_download stdout) as [d|e'] eqn:He;
      simpl in Hr; rewrite <- Hr; [by eexists|].
    by rewrite (extract_download_raises _ _ He).
  - case_decide; by eexists.
Qed.

(** C1, counterexample. The line made of the ['[download]'] header alone,
    and a progress line cut off before the speed and ETA tokens, raise
    [IndexError]. *)
Lemma truncated_lines_raise :
  extract_data "[download]" = Raise IndexError
  ∧ extract_data "[download]  42.0% of 10.00MiB" = Raise IndexError.
Proof. split; vm_compute; reflexivity. Qed.

(** C7. On a ['[download]'] line whose first token after the header has a
    percent sign: if that token is ['100%'], speed and eta are the empty
    string and percent (and filesize) are absent; otherwise percent,
    filesize, speed and eta are the tokens at positions 0, 2, 4 and 6 after
    the header (and a missing one raises [IndexError]). *)
Theorem progress_line_fields line s0 rest :
  tokens line = "[download]" :: s0 :: rest →
  contains "%" s0 = true →
  if decide (s0 = "100%") then
    ∃ d, extract_data line = Ok d
         ∧ d !! "speed" = Some "" ∧ d !! "eta" = Some ""
         ∧ d !! "percent" = None ∧ d !! "filesize" = None
  else
    match (s0 :: rest) !! 2%nat, (s0 :: rest) !! 4%nat, (s0 :: rest) !! 6%nat with
    | Some filesize, Some speed, Some eta =>
        ∃ d, extract_data line = Ok d
             ∧ d !! "percent" = Some s0 ∧ d !! "filesize" = Some filesize
             ∧ d !! "speed" = Some speed ∧ d !! "eta" = Some eta
    | _, _, _ => extract_data line = Raise IndexError
    end.
Proof.
  intros Ht Hpct. rewrite extract_data_tokens, Ht.
  rewrite (decide_True (P := "[download]" = "[download]")) by done.
  by apply extract_download_percent.
Qed.

Lemma progress_line_fields_witness :
  (∃ d, extract_data "[download]  42.0% of 10.00MiB at 1.20MiB/s ETA 00:10" = Ok d
        ∧ d !! "percent" = Some "42.0%" ∧ d !! "filesize" = Some "10.00MiB"
        ∧ d !! "speed" = Some "1.20MiB/s" ∧ d !! "eta" = Some "00:10")
  ∧ (∃ d, extract_data "[download] 100% of 10.00MiB" = Ok d
          ∧ d !! "speed" = Some "" ∧ d !! "eta" = Some ""
          ∧ d !! "percent" = None ∧ d !! "filesize" = None).
Proof.
  split.
  - apply (progress_line_fields
             "[download]  42.0% of 10.00MiB at 1.20MiB/s ETA 00:10" "42.0%"
             ["of"; "10.00MiB"; "at"; "1.20MiB/s"; "ETA"; "00:10"]);
      reflexivity.
  - apply (progress_line_fields "[download] 100% of 10.00MiB" "100%"
             ["of"; "10.00MiB"]); reflexivity.
Defined.

End Classifier.

(** ** Merging an event into the progress state *)

Section Merge.

Lemma update_key_eq key value self updated :
  update_key key value (self, updated) =
    (mk (data_hook self) (logger self)
        (if decide (key = "status" ∧ value = "Already Downloaded")
         then ALREADY else _return_code self)
        (if decide (key = "filename")
         then _files_list self ++ [value] else _files_list self)
        (<[key := stored key value]> (_data self))
        (hooked self) (logged self),
     true).
Proof.
  unfold update_key, stored.
  repeat case_decide; destruct_and?; simplify_eq; try naive_solver;
    by destruct self, updated.
Qed.

Lemma lookup_merged old data k :
  merged old data !! k =
    match data !! k with
    | Some v => Some (stored k v)
    | None => old !! k
    end.
Proof.
  unfold merged. rewrite lookup_union_with, map_lookup_imap.
  destruct (data !! k); simpl; by destruct (old !! k).
Qed.

Lemma merged_empty old : merged old ∅ = old.
Proof. apply map_eq. intros k. by rewrite lookup_merged, lookup_empty. Qed.

(** [_update_data] in closed form: the order in which [for key in data]
    visits the keys does not matter. *)
Lemma _update_data_spec self (data : gmap string string) :
  _update_data self data =
    (mk (data_hook self) (logger self)
        (if decide (data !! "status" = Some "Already Downloaded")
         then ALREADY else _return_code self)
        (_files_list self ++ option_list (data !! "filename"))
        (merged (_data self) data)
        (hooked self) (logged self),
     bool_decide (data ≠ ∅)).
Proof.
  unfold _update_data.
  pose (P := (λ (r : t * bool) (m : gmap string string), r =
    (mk (data_hook self) (logger self)
        (if decide (m !! "status" = Some "Already Downloaded")
         then ALREADY else _return_code self)
        (_files_list self ++ option_list (m !! "filename"))
        (merged (_data self) m)
        (hooked self) (logged self),
     bool_decide (m ≠ ∅)))).
  apply (map_fold_weak_ind P); unfold P; clear P.
  - rewrite !lookup_empty, merged_empty. simpl. rewrite app_nil_r.
    by destruct self.
  - intros k v m r Hk ->. rewrite update_key_eq.
    cbn [data_hook logger _return_code _files_list _data hooked logged].
    f_equal; [|by rewrite bool_decide_eq_true_2 by apply insert_non_empty].
    f_equal.
    + destruct (decide (k = "status")) as [->|Hne].
      * rewrite lookup_insert_eq, Hk.
        rewrite (decide_False (P := None = _)) by done.
        destruct (decide (v = "Already Downloaded")) as [->|?].
        -- by rewrite !decide_True.
        -- rewrite !decide_False; [done|congruence|tauto].
      * rewrite lookup_insert_ne by done.
        rewrite (decide_False (P := _ ∧ _)) by tauto. done.
    + destruct (decide (k = "filename")) as [->|?].
      * rewrite lookup_insert_eq, Hk. simpl. by rewrite app_nil_r.
      * by rewrite lookup_insert_ne by done.
    + apply map_eq. intros i. rewrite lookup_insert, !lookup_merged.
      destruct (decide (k = i)) as [->|?].
      * by rewrite lookup_insert_eq.
      * by rewrite lookup_insert_ne.
Qed.

(** C6. Merge is monotonic per field: a field the event does not mention
    keeps its value, so a field once set is only overwritten by an event
    that supplies a value for that same field. *)
Theorem merge_keeps_unmentioned_fields self (data : gmap string string) k :
  data !! k = None →
  _data (_update_data self data).1 !! k = _data self !! k.
Proof.
  intros Hk. rewrite _update_data_spec. simpl. by rewrite lookup_merged, Hk.
Qed.

Lemma merge_keeps_unmentioned_fields_witness :
  let self :=
    (_update_data (__init__ true true)
       (<["percent" := "42.0%"]> (<["status" := "Downloading"]> ∅))).1 in
  let data : gmap string string := <["status" := "Post Processing"]> ∅ in
  data !! "percent" = None
  ∧ _data (_update_data self data).1 !! "percent" = _data self !! "percent".
Proof.
  split; [reflexivity|].
  apply (merge_keeps_unmentioned_fields _ (<["status" := "Post Processing"]> ∅) "percent").
  reflexivity.
Defined.

End Merge.

(** ** One turn of the loop, and the loop *)

Section Supervisor.

Lemma _read_fst c : (_read c).1 = rstrip (stdout_line c).
Proof. done. Qed.

Lemma nonblank_tokens c : nonblank c = bool_decide (tokens (_read c).1 ≠ []).
Proof.
  unfold nonblank. rewrite _read_fst.
  apply bool_decide_ext. by rewrite tokens_rstrip_nil.
Qed.

Lemma reads_already_nonblank c : reads_already c = true → nonblank c = true.
Proof.
  rewrite nonblank_tokens. unfold reads_already, already_line.
  by destruct (tokens _).
Qed.

Lemma reads_error_blank c : reads_error c = true → nonblank c = false.
Proof.
  unfold reads_error, nonblank, _read. simpl.
  destruct (decide (rstrip (stdout_line c) = "")) as [->|?]; [done|].
  by rewrite bool_decide_eq_false_2 by naive_solver.
Qed.

Lemma stop_here_mk c p dh lg rc fl dt hk lgd :
  stop_here c p (mk dh lg rc fl dt hk lgd)
  = mk dh lg (if stopped_at c p then STOPPED else rc) fl dt hk lgd.
Proof.
  unfold stop_here, stopped_at, stop.
  destruct (decide (stop_at c = Some p)) as [H|H];
    [rewrite ?(bool_decide_eq_true_2 _ H)|rewrite ?(bool_decide_eq_false_2 _ H)];
    reflexivity.
Qed.

Lemma _update_data_mk dh lg rc fl dt hk lgd (data : gmap string string) :
  _update_data (mk dh lg rc fl dt hk lgd) data
  = (mk dh lg
        (if bool_decide (data !! "status" = Some "Already Downloaded")
         then ALREADY else rc)
        (fl ++ option_list (data !! "filename")) (merged dt data) hk lgd,
     bool_decide (data ≠ ∅)).
Proof.
  rewrite _update_data_spec. cbn [data_hook logger _return_code _files_list _data hooked logged].
  destruct (decide (data !! "status" = Some "Already Downloaded")) as [H|H];
    [rewrite ?(bool_decide_eq_true_2 _ H)|rewrite ?(bool_decide_eq_false_2 _ H)];
    reflexivity.
Qed.

Lemma _hook_data_mk (updated : bool) dh lg rc fl dt hk lgd :
  (if updated then _hook_data (mk dh lg rc fl dt hk lgd) else mk dh lg rc fl dt hk lgd)
  = mk dh lg rc fl dt (hk ++ if dh && updated then [dt] else []) lgd.
Proof. destruct updated, dh; cbn; by rewrite ?app_nil_r. Qed.

Lemma _log_mk (stderr : string) dh lg rc fl dt hk lgd :
  (if decide (stderr ≠ "")
   then _log (set_return_code (mk dh lg rc fl dt hk lgd) ERROR) stderr
   else mk dh lg rc fl dt hk lgd)
  = mk dh lg (if bool_decide (stderr ≠ "") then ERROR else rc) fl dt hk
       (lgd ++ if lg && bool_decide (stderr ≠ "") then [stderr] else []).
Proof.
  destruct (decide (stderr ≠ "")) as [H|H];
    [rewrite ?(bool_decide_eq_true_2 _ H)|rewrite ?(bool_decide_eq_false_2 _ H)];
    destruct lg; cbn; by rewrite ?app_nil_r.
Qed.

(** One turn of the loop in closed form, when the line is classified. *)
Lemma download_body_Ok self c data :
  extract_data (_read c).1 = Ok data →
  download_body self c =
    (mk (data_hook self) (logger self)
        (body_return_code c (_return_code self))
        (_files_list self ++ option_list (data !! "filename"))
        (merged (_data self) data)
        (hooked self
         ++ if data_hook self && nonblank c then [merged (_data self) data] else [])
        (logged self
         ++ if logger self && reads_error c then [(_read c).2] else []),
     Ok ()).
Proof.
  intros Hd.
  assert (Hnb : bool_decide (data ≠ ∅) = nonblank c).
  { rewrite nonblank_tokens. apply bool_decide_ext.
    by rewrite (extract_data_empty_iff _ _ Hd). }
  pose proof (extract_data_already _ _ Hd) as Hal.
  unfold download_body, body_return_code, reads_already, reads_error.
  destruct (_read c) as [stdout stderr] eqn:Hr. cbn [fst snd] in *.
  destruct self as [dh lg rc fl dt hk lgd].
  cbn [data_hook logger _return_code _files_list _data hooked logged].
  rewrite Hd, stop_here_mk. cbv zeta.
  rewrite _update_data_mk, Hnb, Hal. cbv beta iota zeta.
  rewrite _hook_data_mk, stop_here_mk, _log_mk, stop_here_mk.
  reflexivity.
Qed.

Lemma download_body_Raise self c e :
  extract_data (_read c).1 = Raise e → (download_body self c).2 = Raise e.
Proof.
  intros Hd. unfold download_body.
  destruct (_read c) as [stdout stderr]. cbn [fst] in Hd. by rewrite Hd.
Qed.

Lemma classified_Ok c :
  classified c = true → ∃ data, extract_data (_read c).1 = Ok data.
Proof. unfold classified. destruct (extract_data _); naive_solver. Qed.

(** The return code of a run: the writes of its turns, the last one
    winning. *)
Lemma download_loop_return_code proc : ∀ self,
  Forall (λ c, classified c = true) proc →
  (download_loop self proc).2
  = Ok (foldl (λ rc c, body_return_code c rc) (_return_code self) proc).
Proof.
  induction proc as [|c proc IH]; intros self Hc; [done|].
  apply Forall_cons in Hc as [[data Hd]%classified_Ok Hc].
  cbn [download_loop foldl]. rewrite (download_body_Ok _ _ _ Hd).
  by rewrite IH.
Qed.

Lemma download_loop_classified proc : ∀ self rc,
  (download_loop self proc).2 = Ok rc → Forall (λ c, classified c = true) proc.
Proof.
  induction proc as [|c proc IH]; intros self rc Hrc; [done|].
  cbn [download_loop] in Hrc. unfold classified at 1.
  destruct (extract_data (_read c).1) as [data|e] eqn:Hd.
  - rewrite (download_body_Ok _ _ _ Hd) in Hrc.
    constructor; [by unfold classified; rewrite Hd|by eapply IH].
  - pose proof (download_body_Raise self c e Hd) as Hb.
    destruct (download_body self c) as [self' [|e']]; simplify_eq/=.
Qed.

Lemma download_loop_hooked proc : ∀ self,
  Forall (λ c, classified c = true) proc →
  data_hook self = true →
  length (hooked (download_loop self proc).1)
  = length (hooked self) + length (filter (λ c, nonblank c = true) proc).
Proof.
  induction proc as [|c proc IH]; intros self Hc Hh; [simpl; lia|].
  apply Forall_cons in Hc as [[data Hd]%classified_Ok Hc].
  cbn [download_loop]. rewrite (download_body_Ok _ _ _ Hd).
  rewrite IH by done. cbn [hooked]. rewrite Hh, length_app. cbn [andb].
  destruct (nonblank c) eqn:Hn.
  - rewrite filter_cons_True by done. simpl. lia.
  - rewrite filter_cons_False by (by rewrite Hn). simpl. lia.
Qed.

End Supervisor.

(** ** The result code of a run *)

Section Results.

Lemma foldl_return_code_fixed (P : cycle → bool) (v : Z) proc :
  (∀ c, P c = true → body_return_code c v = v) →
  Forall (λ c, P c = true) proc →
  foldl (λ rc c, body_return_code c rc) v proc = v.
Proof.
  intros HP. induction 1 as [|c proc Hc _ IH]; [done|].
  simpl. by rewrite HP.
Qed.

Lemma silent_keeps_STOPPED c :
  silent c = true → body_return_code c STOPPED = STOPPED.
Proof.
  unfold silent, body_return_code.
  intros [->%negb_true_iff ->%negb_true_iff]%andb_prop.
  by destruct (stopped_at c BeforeUpdate), (stopped_at c BeforeErrCheck),
    (stopped_at c AfterErrCheck).
Qed.

Lemma undisturbed_keeps_ALREADY c :
  undisturbed c = true → body_return_code c ALREADY = ALREADY.
Proof.
  unfold undisturbed, body_return_code, stopped_at.
  intros [Hs%bool_decide_eq_true ->%negb_true_iff]%andb_prop.
  rewrite Hs. cbn. by destruct (reads_already c).
Qed.

(** C3 (as amended). When [stop()] takes effect during a run and no
    ['Already Downloaded'] line and no text on stderr is processed after it,
    [download] returns [STOPPED], whatever the turns before the stop wrote. *)
Theorem stop_returns_STOPPED_when_last_write self before c after p :
  Forall (λ c, classified c = true) (before ++ c :: after) →
  stop_at c = Some p →
  silent_after p c = true →
  Forall (λ c, silent c = true) after →
  (download self (before ++ c :: after)).2 = Ok STOPPED.
Proof.
  intros Hc Hp Hs Ha. unfold download.
  rewrite download_loop_return_code by done. f_equal.
  rewrite foldl_app. cbn [foldl].
  generalize (foldl (λ rc c, body_return_code c rc)
                (_return_code (download_start self)) before). intros rc.
  assert (body_return_code c rc = STOPPED) as ->.
  { unfold body_return_code, stopped_at. rewrite Hp.
    destruct p; cbn in Hs |- *.
    - apply andb_prop in Hs as [->%negb_true_iff ->%negb_true_iff]. done.
    - apply negb_true_iff in Hs as ->. by destruct (reads_already c).
    - by destruct (reads_already c), (reads_error c). }
  apply (foldl_return_code_fixed silent); auto using silent_keeps_STOPPED.
Qed.

Lemma stop_returns_STOPPED_when_last_write_witness :
  (download (__init__ true true)
     [mk_cycle "[download]  42.0% of 10.00MiB at 1.20MiB/s ETA 00:10" "" None;
      mk_cycle "" "ERROR: unable to download video data" None;
      mk_cycle "[download]  43.0% of 10.00MiB at 1.20MiB/s ETA 00:09" ""
        (Some BeforeErrCheck);
      mk_cycle "" "" None]).2 = Ok STOPPED.
Proof.
  apply (stop_returns_STOPPED_when_last_write (__init__ true true)
           [mk_cycle "[download]  42.0% of 10.00MiB at 1.20MiB/s ETA 00:10" "" None;
            mk_cycle "" "ERROR: unable to download video data" None]
           (mk_cycle "[download]  43.0% of 10.00MiB at 1.20MiB/s ETA 00:09" ""
              (Some BeforeErrCheck))
           [mk_cycle "" "" None] BeforeErrCheck).
  - repeat constructor.
  - reflexivity.
  - reflexivity.
  - repeat constructor.
Defined.

(** C3, counterexample. [stop()] takes effect while [_read] waits for a
    line; the line then read comes from stderr and the loop writes [ERROR]
    over [STOPPED]; or it is an 'already downloaded' line and [_update_data]
    writes [ALREADY] over it. The process is dead at the next test and
    [download] returns that code. *)
Lemma stop_overwritten_by_later_output :
  (download (__init__ true true)
     [mk_cycle "" "ERROR: unable to download video data" (Some BeforeUpdate)]).2
  = Ok ERROR
  ∧ (download (__init__ true true)
       [mk_cycle "[download] a.mp4 has already been downloaded" ""
          (Some BeforeUpdate)]).2
    = Ok ALREADY.
Proof. split; vm_compute; reflexivity. Qed.

(** C4 (as amended). Merging an event whose status is ['Already Downloaded']
    sets the return code to [ALREADY] and stores [None] as the status; and a
    run in which a ['[download]'] line ending in ['downloaded'] is merged
    returns [ALREADY] whatever the earlier turns did, provided that from
    that merge on no text is read on stderr and no [stop()] takes effect. *)
Theorem already_downloaded_return_code :
  (∀ self (data : gmap string string),
     data !! "status" = Some "Already Downloaded" →
     _return_code (_update_data self data).1 = ALREADY
     ∧ _data (_update_data self data).1 !! "status" = Some None)
  ∧ (∀ self before c after,
       Forall (λ c, classified c = true) (before ++ c :: after) →
       reads_already c = true →
       unstopped_after_update c = true →
       Forall (λ c, undisturbed c = true) after →
       (download self (before ++ c :: after)).2 = Ok ALREADY).
Proof.
  split.
  - intros self data Hs. rewrite _update_data_spec. cbn.
    rewrite decide_True by done. split; [done|].
    rewrite lookup_merged, Hs. by vm_compute.
  - intros self before c after Hc Hal Hs Ha. unfold download.
    rewrite download_loop_return_code by done. f_equal.
    rewrite foldl_app. cbn [foldl].
    generalize (foldl (λ rc c, body_return_code c rc)
                  (_return_code (download_start self)) before). intros rc.
    assert (body_return_code c rc = ALREADY) as ->.
    { unfold body_return_code. rewrite Hal.
      assert (reads_error c = false) as ->.
      { apply reads_already_nonblank in Hal.
        destruct (reads_error c) eqn:He; [|done].
        apply reads_error_blank in He. congruence. }
      apply andb_prop in Hs as [->%negb_true_iff ->%negb_true_iff]. done. }
    apply (foldl_return_code_fixed undisturbed);
      auto using undisturbed_keeps_ALREADY.
Qed.

Lemma already_downloaded_return_code_witness :
  (_return_code (_update_data (__init__ true true)
                   (<["status" := "Already Downloaded"]> ∅)).1 = ALREADY
   ∧ _data (_update_data (__init__ true true)
              (<["status" := "Already Downloaded"]> ∅)).1 !! "status" = Some None)
  ∧ (download (__init__ true true)
       [mk_cycle "[download] Destination: a.mp4" "" None;
        mk_cycle "" "WARNING: unable to set the modification time" None;
        mk_cycle "[download] b.mp4 has already been downloaded" "" None;
        mk_cycle "[download] 100% of 10.00MiB" "" None]).2 = Ok ALREADY.
Proof.
  split.
  - apply (proj1 already_downloaded_return_code). reflexivity.
  - apply (proj2 already_downloaded_return_code (__init__ true true)
             [mk_cycle "[download] Destination: a.mp4" "" None;
              mk_cycle "" "WARNING: unable to set the modification time" None]
             (mk_cycle "[download] b.mp4 has already been downloaded" "" None)
             [mk_cycle "[download] 100% of 10.00MiB" "" None]).
    + repeat constructor.
    + reflexivity.
    + reflexivity.
    + repeat constructor.
Defined.

(** C4, counterexample. A line ending in ['downloaded'] is observed, and
    the run does not return [ALREADY]: text read on stderr later in the run
    writes [ERROR] over it; and under a header other than ['[download]'] the
    line is not an 'already downloaded' line at all. *)
Lemma already_overwritten_by_later_error :
  (download (__init__ true true)
     [mk_cycle "[download] a.mp4 has already been downloaded" "" None;
      mk_cycle "" "ERROR: unable to download video data" None]).2 = Ok ERROR
  ∧ (download (__init__ true true)
       [mk_cycle "[ffmpeg] a.mp4 downloaded" "" None]).2 = Ok OK.
Proof. split; vm_compute; reflexivity. Qed.

End Results.

(** ** Invocations and notifications *)

Section Invocations.

(** C5 (as amended). The eight progress fields are unset when the object
    is constructed; [download] then starts by resetting the return code only,
    and keeps [self._data] and [self._files_list] as the previous invocation
    left them. *)
Theorem progress_state_fresh_per_object :
  (∀ data_hook logger,
     Forall (λ k, _data (__init__ data_hook logger) !! k = Some None) data_keys
     ∧ dom (_data (__init__ data_hook logger)) = list_to_set data_keys)
  ∧ (∀ self,
       _return_code (download_start self) = OK
       ∧ _data (download_start self) = _data self
       ∧ _files_list (download_start self) = _files_list self).
Proof.
  split.
  - intros dh lg. split.
    + repeat constructor.
    + unfold __init__, data_keys. cbn [_data]. rewrite dom_list_to_map_L. done.
  - by intros [].
Qed.

(** C5, counterexample. After a first invocation that read a destination
    line, the second invocation on the same object starts with the status
    and the filename of the first. *)
Lemma second_download_starts_with_old_progress :
  let self :=
    (download (__init__ true true)
       [mk_cycle "[download] Destination: /tmp/movie.mp4" "" None]).1 in
  _data (download_start self) !! "status" = Some (Some "Downloading")
  ∧ _data (download_start self) !! "filename" = Some (Some "movie.mp4").
Proof. split; vm_compute; reflexivity. Qed.

(** C10 (as amended). A line with at least one token on which
    [extract_data] returns gives an event with a status, one of the four, and
    ['Pre Processing'] under any header other than ['[download]'] and
    ['[ffmpeg]']; [_update_data] returns [True] on every event with a status,
    whatever the object holds; and in a run that returns, the observer is
    called once for every turn whose line of stdout is not blank. *)
Theorem every_classified_line_notifies :
  (∀ line d,
     extract_data line = Ok d → tokens line ≠ [] →
     ∃ status, d !! "status" = Some status
       ∧ status ∈ ["Downloading"; "Post Processing"; "Pre Processing";
                   "Already Downloaded"]
       ∧ (∀ header, head (tokens line) = Some header →
            header ≠ "[download]" → header ≠ "[ffmpeg]" →
            status = "Pre Processing"))
  ∧ (∀ self (d : gmap string string),
       is_Some (d !! "status") → (_update_data self d).2 = true)
  ∧ (∀ self proc rc,
       (download self proc).2 = Ok rc → data_hook self = true →
       length (hooked (download self proc).1)
       = length (hooked self) + length (filter (λ c, nonblank c = true) proc)).
Proof.
  split; [|split].
  - intros line d Hd Ht. rewrite (extract_data_status _ _ Hd).
    destruct (tokens line) as [|header stdout]; [done|].
    eexists. split; [done|]. split.
    + repeat case_decide; set_solver.
    + intros h [= <-] H1 H2. by rewrite !decide_False.
  - intros self d [v Hv]. rewrite _update_data_spec. cbn.
    apply bool_decide_eq_true_2. intros ->. by rewrite lookup_empty in Hv.
  - intros self proc rc Hrc Hh. unfold download in *.
    rewrite download_loop_hooked; [by destruct self| |by destruct self].
    by eapply download_loop_classified.
Qed.

Lemma every_classified_line_notifies_witness :
  (∃ status,
     (<["status" := "Pre Processing"]> ∅ : gmap string string) !! "status" = Some status
     ∧ status ∈ ["Downloading"; "Post Processing"; "Pre Processing";
                 "Already Downloaded"]
     ∧ (∀ header, head (tokens "[youtube] Setting language") = Some header →
          header ≠ "[download]" → header ≠ "[ffmpeg]" →
          status = "Pre Processing"))
  ∧ (_update_data (__init__ true true) (<["status" := "Pre Processing"]> ∅)).2 = true
  ∧ length (hooked (download (__init__ true true)
                      [mk_cycle "[youtube] Setting language" "" None;
                       mk_cycle "" "" None;
                       mk_cycle "[youtube] Setting language" "" None]).1)
    = 0 + 2.
Proof.
  destruct every_classified_line_notifies as (H1 & H2 & H3).
  split; [|split].
  - apply (H1 "[youtube] Setting language"); [reflexivity|discriminate].
  - apply H2. by eexists.
  - exact (H3 (__init__ true true)
             [mk_cycle "[youtube] Setting language" "" None;
              mk_cycle "" "" None;
              mk_cycle "[youtube] Setting language" "" None]
             OK eq_refl eq_refl).
Defined.

(** C10, counterexample. The line ['[download]'] has a token and yields no
    event: [extract_data] raises, and so does the run that reads it. *)
Lemma header_only_line_yields_no_event :
  tokens "[download]" = ["[download]"]
  ∧ extract_data "[download]" = Raise IndexError
  ∧ (download (__init__ true true) [mk_cycle "[download]" "" None]).2
    = Raise IndexError.
Proof. repeat split; vm_compute; reflexivity. Qed.

End Invocations.

(** ** Cleaning the DASH files *)

Section ClearDash.

Implicit Types fs : gmap string bool.

Lemma lookup_removed files : ∀ fs p,
  removed files fs !! p = if decide (p ∈ files) then None else fs !! p.
Proof.
  induction files as [|f files IH]; intros fs p.
  { by destruct (decide (p ∈ [])) as [?%elem_of_nil|]. }
  cbn [removed foldl]. fold (removed files (delete f fs)). rewrite IH.
  destruct (decide (p ∈ f :: files)) as [Hin|Hnin].
  - apply elem_of_cons in Hin as [->|Hin].
    + rewrite lookup_delete_eq. by destruct (decide (f ∈ files)).
    + destruct (decide (p ∈ files)); done.
  - apply not_elem_of_cons in Hnin as [Hne Hnin].
    destruct (decide (p ∈ files)); [done|]. by rewrite lookup_delete_ne.
Qed.

Lemma clear_dash_loop_removable files : ∀ fs,
  Forall (λ p, fs !! p ≠ Some false) files →
  clear_dash_loop files fs = (removed files fs, Ok ()).
Proof.
  induction files as [|f files IH]; intros fs Hf; [done|].
  apply Forall_cons in Hf as [Hf Hfs].
  assert (Forall (λ p, delete f fs !! p ≠ Some false) files) as Hd.
  { eapply Forall_impl; [done|]. intros p Hp. rewrite lookup_delete.
    by case_decide. }
  cbn [clear_dash_loop removed foldl]. unfold os_path_exists, os_remove.
  destruct (fs !! f) as [[]|] eqn:Hl.
  - rewrite bool_decide_eq_true_2 by eauto. by apply IH.
  - done.
  - rewrite bool_decide_eq_false_2 by (by intros [? ?]).
    rewrite delete_id by done. apply IH. by rewrite delete_id in Hd.
Qed.

Lemma clear_dash_loop_app before files : ∀ fs,
  Forall (λ p, fs !! p ≠ Some false) before →
  clear_dash_loop (before ++ files) fs = clear_dash_loop files (removed before fs).
Proof.
  induction before as [|f before IH]; intros fs Hf; [done|].
  apply Forall_cons in Hf as [Hf Hfs].
  assert (Forall (λ p, delete f fs !! p ≠ Some false) before) as Hd.
  { eapply Forall_impl; [done|]. intros p Hp. rewrite lookup_delete.
    by case_decide. }
  cbn [app clear_dash_loop removed foldl]. unfold os_path_exists, os_remove.
  destruct (fs !! f) as [[]|] eqn:Hl.
  - rewrite bool_decide_eq_true_2 by eauto. by apply IH.
  - done.
  - rewrite bool_decide_eq_false_2 by (by intros [? ?]).
    rewrite delete_id by done. apply IH. by rewrite delete_id in Hd.
Qed.

(** C9 (as amended). As long as every [os.remove] succeeds, [clear_dash]
    removes every path of the list that exists and skips the others without
    raising. The first [os.remove] that fails raises [OSError] out of
    [clear_dash]: the paths before it are removed, the paths after it are
    left as they are. *)
Theorem clear_dash_removes_until_first_failure :
  (∀ self fs,
     Forall (λ p, fs !! p ≠ Some false) (_files_list self) →
     ∃ fs', clear_dash self fs = (fs', Ok ())
       ∧ ∀ p, fs' !! p = if decide (p ∈ _files_list self) then None else fs !! p)
  ∧ (∀ self fs before f rest,
       _files_list self = before ++ f :: rest →
       Forall (λ p, fs !! p ≠ Some false) before →
       fs !! f = Some false →
       ∃ fs', clear_dash self fs = (fs', Raise OSError)
         ∧ ∀ p, fs' !! p = if decide (p ∈ before) then None else fs !! p).
Proof.
  split.
  - intros self fs Hf. exists (removed (_files_list self) fs). split.
    + by apply clear_dash_loop_removable.
    + apply lookup_removed.
  - intros self fs before f rest Hl Hd Hf. exists (removed before fs).
    split; [|apply lookup_removed].
    unfold clear_dash. rewrite Hl, clear_dash_loop_app by done.
    assert (removed before fs !! f = Some false) as Hr.
    { rewrite lookup_removed. rewrite decide_False; [done|].
      intros Hin. by eapply Forall_forall in Hd. }
    cbn [clear_dash_loop]. unfold os_path_exists, os_remove. rewrite Hr.
    by rewrite bool_decide_eq_true_2 by eauto.
Qed.

Lemma clear_dash_removes_until_first_failure_witness :
  let self := set_files_list (__init__ true true)
                ["/tmp/v.mp4"; "/tmp/a.m4a"; "/tmp/gone.mp4"] in
  (∃ fs', clear_dash self {[ "/tmp/v.mp4" := true; "/tmp/a.m4a" := true ]}
          = (fs', Ok ())
     ∧ ∀ p, fs' !! p =
         if decide (p ∈ _files_list self) then None
         else ({[ "/tmp/v.mp4" := true; "/tmp/a.m4a" := true ]} : gmap string bool) !! p)
  ∧ (∃ fs', clear_dash self {[ "/tmp/v.mp4" := true; "/tmp/a.m4a" := false ]}
            = (fs', Raise OSError)
       ∧ ∀ p, fs' !! p =
           if decide (p ∈ ["/tmp/v.mp4"]) then None
           else ({[ "/tmp/v.mp4" := true; "/tmp/a.m4a" := false ]} : gmap string bool) !! p).
Proof.
  split.
  - apply (proj1 clear_dash_removes_until_first_failure).
    repeat constructor; by vm_compute.
  - apply (proj2 clear_dash_removes_until_first_failure _ _
             ["/tmp/v.mp4"] "/tmp/a.m4a" ["/tmp/gone.mp4"]).
    + reflexivity.
    + repeat constructor; by vm_compute.
    + reflexivity.
Defined.

(** C9, counterexample. The first file of the list cannot be removed:
    [clear_dash] raises [OSError] and the second file, which exists and could
    be removed, is still there. *)
Lemma clear_dash_aborts_on_failure :
  let self := set_files_list (__init__ true true) ["/tmp/v.mp4"; "/tmp/a.m4a"] in
  let fs : gmap string bool := {[ "/tmp/v.mp4" := false; "/tmp/a.m4a" := true ]} in
  (clear_dash self fs).2 = Raise OSError
  ∧ (clear_dash self fs).1 !! "/tmp/a.m4a" = Some true.
Proof. split; vm_compute; reflexivity. Qed.

End ClearDash.

(** ** The options parser against the argument builder *)

Section Emission.

Lemma returns_options_list : returns_list options_list (Ok []).
Proof. intros l. cbn. by rewrite app_nil_r. Qed.

Lemma returns_list_seq m k r1 r2 :
  emits m r1 → returns_list k r2 →
  returns_list (m ;; k) (args1 ← r1; args2 ← r2; Ok (args1 ++ args2)).
Proof.
  destruct m as [f], k as [g]. unfold emits, returns_list. cbn [run].
  intros H1 H2 l. specialize (H1 l). cbn.
  destruct r1 as [args1|e1]; cbn.
  - rewrite H1, H2. destruct r2; cbn; [|done]. by rewrite (assoc_L (++)).
  - destruct (f l) as [l' [|e]]; by simplify_eq/=.
Qed.

Lemma emits_append s : emits (append s) (Ok [s]).
Proof. by intros l. Qed.

Lemma emits_ret : emits (mret ()) (Ok []).
Proof. intros l. cbn. by rewrite app_nil_r. Qed.

Lemma emits_seq m1 m2 r1 r2 :
  emits m1 r1 → emits m2 r2 →
  emits (m1 ;; m2) (args1 ← r1; args2 ← r2; Ok (args1 ++ args2)).
Proof.
  destruct m1 as [f1], m2 as [f2]. unfold emits. cbn [run].
  intros H1 H2 l. specialize (H1 l). cbn.
  destruct r1 as [args1|e1]; cbn.
  - rewrite H1. specialize (H2 (l ++ args1)).
    destruct r2 as [args2|e2]; cbn.
    + by rewrite H2, (assoc_L (++)).
    + destruct (f2 (l ++ args1)) as [l' [|e]]; by simplify_eq/=.
  - destruct (f1 l) as [l' [|e]]; by simplify_eq/=.
Qed.

Lemma emits_when (b : bool) m r :
  emits m r → emits (when b m) (if b then r else Ok []).
Proof. destruct b; [done|]. intros _. apply emits_ret. Qed.

Lemma emits_eval {A} (r : result A) (f : A → method ()) g :
  (∀ a, emits (f a) (g a)) → emits (eval r ≫= f) (r ≫= g).
Proof.
  intros H l. destruct r as [a|e]; cbn; [|done].
  specialize (H a l). destruct (f a) as [fa]. cbn in *. by destruct (g a).
Qed.

Lemma emits_for_each xs : emits (for_each xs append) (Ok xs).
Proof.
  induction xs as [|x xs IH]; [apply emits_ret|].
  intros l. specialize (IH (l ++ [x])). cbn in *.
  by rewrite IH, <- (assoc_L (++)).
Qed.

Lemma emits_eq m r r' : emits m r → r = r' → emits m r'.
Proof. by intros ? <-. Qed.

End Emission.

Create HintDb emits.
#[local] Hint Resolve emits_append emits_ret emits_seq emits_when
  emits_for_each : emits.

Section Parser.

Variable fix_path : string → string.
Variable is_dash : string → bool.
Variable o : options.

Import ArgumentBuilder.

Ltac emit :=
  repeat first
    [ apply emits_seq | apply emits_when | apply emits_append
    | apply emits_ret | apply emits_for_each
    | apply emits_eval; intros ? ].

(** A conditional flag of the builder is there exactly when its guard
    holds. *)
Lemma emit_if_present (guard : bool) (args : list string) :
  args ≠ [] → emit_if guard args ≠ [] ↔ guard = true.
Proof. intros Ha. destruct guard; cbn; naive_solver. Qed.

Lemma progress_emitted : emits _set_progress_options (Ok progress).
Proof. apply emits_append. Qed.

Lemma output_emitted :
  emits (_set_output_options fix_path o) (Ok (output fix_path o)).
Proof.
  eapply emits_eq.
  - unfold _set_output_options. apply emits_seq; [apply emits_append|].
    apply emits_seq; [|apply emits_when, emits_append].
    instantiate (1 := Ok (template fix_path o)). unfold template.
    repeat case_decide; auto with emits.
  - unfold output, emit_if. by destruct (restrict_filenames o).
Qed.

Lemma auth_emitted : emits (_set_auth_options o) (Ok (auth o)).
Proof.
  eapply emits_eq; [unfold _set_auth_options; emit|].
  unfold auth, emit_if. by repeat destruct (bool_decide _).
Qed.

Lemma connection_emitted : emits (_set_connection_options o) (Ok (connection o)).
Proof.
  eapply emits_eq; [unfold _set_connection_options; emit|].
  unfold connection, emit_if. by repeat destruct (bool_decide _).
Qed.

Lemma playlist_emitted : emits (_set_playlist_options o) (Ok (playlist o)).
Proof.
  eapply emits_eq; [unfold _set_playlist_options; emit|].
  unfold playlist, emit_if. by repeat destruct (bool_decide _).
Qed.

Lemma filesystem_emitted : emits (_set_filesystem_options o) (Ok (filesystem o)).
Proof.
  eapply emits_eq; [unfold _set_filesystem_options; emit|].
  unfold filesystem, emit_if.
  destruct (ignore_errors o), (write_description o), (write_info o),
    (write_thumbnail o); by repeat destruct (bool_decide _).
Qed.

Lemma extra_emitted : emits (_set_other_options o) (Ok (extra o)).
Proof.
  unfold _set_other_options, extra.
  case_bool_decide as Hc; [apply emits_for_each|].
  rewrite Hc. apply emits_ret.
Qed.

Lemma subtitles_emitted : emits (_set_subtitles_options o) (subtitles o).
Proof.
  eapply emits_eq; [unfold _set_subtitles_options; emit|].
  unfold subtitles, emit_if.
  destruct (getitem SUBS_LANG (subs_lang o));
    by destruct (write_all_subs o), (write_auto_subs o), (write_subs o),
      (embed_subs o).
Qed.

Lemma audio_emitted : emits (_set_audio_options o) (audio o).
Proof.
  eapply emits_eq; [unfold _set_audio_options; emit|].
  unfold audio, emit_if.
  destruct (to_audio o); [|done].
  destruct (getitem AUDIO_QUALITY (audio_quality o));
    by destruct (bool_decide (audio_quality o ≠ "mid")), (keep_video o).
Qed.

Lemma video_emitted : emits (_set_video_options is_dash o) (video is_dash o).
Proof.
  unfold _set_video_options, video, format_code.
  destruct (bool_decide (video_format o ≠ "default")); [|apply emits_ret].
  intros l.
  destruct (getitem VIDEO_FORMATS (video_format o)) as [code|e]; [|done].
  destruct (is_dash (video_format o)); [|by cbn; rewrite <- (assoc_L (++))].
  destruct (is_dash (dash_audio_format o)); [|by cbn; rewrite <- (assoc_L (++))].
  destruct (getitem DASH_AUDIO_FORMATS (dash_audio_format o)); [|done].
  cbn. by rewrite <- (assoc_L (++)).
Qed.

End Parser.

Section Parse.

Variable fix_path : string → string.
Variable is_dash : string → bool.
Variable o : options.

Import ArgumentBuilder.

Lemma parse_returns_build :
  returns_list (parse fix_path is_dash o) (build fix_path is_dash o).
Proof.
  intros l. unfold parse.
  rewrite (returns_list_seq _ _ _ _ progress_emitted
    (returns_list_seq _ _ _ _ (output_emitted fix_path o)
    (returns_list_seq _ _ _ _ (auth_emitted o)
    (returns_list_seq _ _ _ _ (connection_emitted o)
    (returns_list_seq _ _ _ _ (video_emitted is_dash o)
    (returns_list_seq _ _ _ _ (playlist_emitted o)
    (returns_list_seq _ _ _ _ (filesystem_emitted o)
    (returns_list_seq _ _ _ _ (subtitles_emitted o)
    (returns_list_seq _ _ _ _ (audio_emitted o)
    (returns_list_seq _ _ _ _ (extra_emitted o)
       returns_options_list)))))))))).
  unfold build.
  destruct (video is_dash o); [|done].
  destruct (subtitles o); [|done].
  destruct (audio o); [|done]. cbn. by rewrite app_nil_r.
Qed.

(** C2. For every configuration, [parse] on a new parser returns the ten
    groups of the builder in their order, progress, output, auth, connection,
    video format, playlist, filesystem, subtitles, audio, extra arguments,
    each conditional flag being there exactly when its guard holds; it raises
    [KeyError] when a format, language or quality name is not in its table. *)
Theorem parse_emits_guarded_flags_in_order :
  parse_fresh fix_path is_dash o = build fix_path is_dash o.
Proof.
  unfold parse_fresh. rewrite parse_returns_build.
  by destruct (build fix_path is_dash o).
Qed.

End Parse.

(** * Further properties of the code *)

(** ** The shapes of a line *)

Section Lines.

(** The event of a ['[download]'] line is decided by the first token after
    the header: a destination, a progress report, a playlist position, or
    none of them; [mark] is the test of the last token. *)
Lemma extract_download_cons s0 rest :
  extract_download (s0 :: rest) =
    let mark (d : gmap string string) :=
      if decide (last (s0 :: rest) = Some "downloaded")
      then <["status" := "Already Downloaded"]> d else d in
    let base : gmap string string := <["status" := "Downloading"]> ∅ in
    if decide (s0 = "Destination:") then
      Ok (mark (<["filename" := join " " rest]> base))
    else if contains "%" s0 then
      if decide (s0 = "100%") then Ok (mark (<["eta" := ""]> (<["speed" := ""]> base)))
      else
        match rest !! 1%nat, rest !! 3%nat, rest !! 5%nat with
        | Some filesize, Some speed, Some eta =>
            Ok (mark (<["eta" := eta]> (<["speed" := speed]>
                       (<["filesize" := filesize]> (<["percent" := s0]> base)))))
        | _, _, _ => Raise IndexError
        end
    else if decide (s0 = "Downloading") then
      match rest !! 0%nat with
      | None => Raise IndexError
      | Some s1 =>
          if decide (s1 = "video") then
            match rest !! 1%nat, rest !! 3%nat with
            | Some playlist_index, Some playlist_size =>
                Ok (mark (<["playlist_size" := playlist_size]>
                           (<["playlist_index" := playlist_index]> base)))
            | _, _ => Raise IndexError
            end
          else Ok (mark base)
      end
    else Ok (mark base).
Proof.
  cbv zeta. unfold extract_download.
  change 0%Z with (Z.of_nat 0); change 1%Z with (Z.of_nat 1);
  change 2%Z with (Z.of_nat 2); change 4%Z with (Z.of_nat 4);
  change 6%Z with (Z.of_nat 6).
  rewrite !index_nat, index_last.
  destruct (last_cons_is_Some s0 rest) as [y Hy]. rewrite Hy.
  cbn [lookup list_lookup mbind result_bind].
  destruct (decide (y = "downloaded")) as [Hy'|Hy'];
    destruct (decide (Some y = Some "downloaded")) as [Hs|Hs];
    try (exfalso; congruence).
  all: destruct (decide (s0 = "Destination:")) as [?|?];
    destruct (contains "%" s0) eqn:?;
    destruct (decide (s0 = "100%")) as [?|?];
    destruct (decide (s0 = "Downloading")) as [?|?];
    simplify_eq; try discriminate;
    cbn [lookup list_lookup mbind result_bind].
  all: try done.
  all: try by destruct (rest !! 1%nat), (rest !! 3%nat), (rest !! 5%nat).
  all: destruct (rest !! 0%nat) as [s1|]; cbn [mbind result_bind]; [|done].
  all: destruct (decide (s1 = "video")) as [->|Hv];
    [rewrite bool_decide_eq_true_2 by done;
     by destruct (rest !! 1%nat), (rest !! 3%nat)
    |by rewrite bool_decide_eq_false_2 by done].
Qed.


Ltac split_decide :=
  match goal with |- context [decide ?P] => destruct (decide P) end.

Lemma dom_insert_within (S : gset string) k v (m : gmap string string) :
  k ∈ S → dom m ⊆ S → dom (<[k:=v]> m) ⊆ S.
Proof.
  intros Hk Hm. rewrite dom_insert_L.
  apply union_least; [by apply singleton_subseteq_l|done].
Qed.

Lemma data_key_listed k :
  bool_decide (k ∈ data_keys) = true → k ∈ (list_to_set data_keys : gset string).
Proof. intros H%bool_decide_eq_true. by apply elem_of_list_to_set. Qed.

Ltac event_dom :=
  first
    [ by intros [=]
    | intros [= <-];
      repeat (apply dom_insert_within; [apply data_key_listed; reflexivity|]);
      rewrite dom_empty_L; apply empty_subseteq ].

Lemma extract_data_dom line d :
  extract_data line = Ok d → dom d ⊆ list_to_set data_keys.
Proof.
  rewrite extract_data_tokens.
  destruct (tokens line) as [|header stdout]; [event_dom|].
  destruct (decide (header = "[download]")) as [_|_].
  - destruct stdout as [|s0 rest]; [done|].
    rewrite extract_download_cons. cbv zeta.
    destruct (decide (last (s0 :: rest) = Some "downloaded")).
    all: destruct (decide (s0 = "Destination:")); [event_dom|].
    all: destruct (contains "%" s0);
      [destruct (decide (s0 = "100%")); [event_dom|];
       destruct (rest !! 1%nat), (rest !! 3%nat), (rest !! 5%nat); event_dom|].
    all: destruct (decide (s0 = "Downloading")); [|event_dom].
    all: destruct (rest !! 0%nat) as [s1|]; [|event_dom].
    all: destruct (decide (s1 = "video")); [|event_dom].
    all: destruct (rest !! 1%nat), (rest !! 3%nat); event_dom.
  - destruct (decide (header = "[ffmpeg]")); event_dom.
Qed.

(** X1. An event only has keys among the eight of [self._data]. *)
Theorem event_keys_are_progress_fields line d k :
  extract_data line = Ok d → is_Some (d !! k) → k ∈ data_keys.
Proof.
  intros Hd%extract_data_dom Hk%elem_of_dom.
  apply Hd in Hk. by apply elem_of_list_to_set in Hk.
Qed.

Lemma event_keys_are_progress_fields_witness :
  "filename" ∈ data_keys.
Proof.
  apply (event_keys_are_progress_fields "[download] Destination: a.mp4"
           (<["filename" := "a.mp4"]> (<["status" := "Downloading"]> ∅))).
  - reflexivity.
  - by eexists.
Defined.


(** [split] and [join] on the space character. *)
Lemma join_cons w ws :
  ws ≠ [] → join " " (w :: ws) = w +:+ String " " (join " " ws).
Proof. by destruct ws. Qed.

Lemma split_space_free w :
  contains " " w = false → split " " w = [w].
Proof.
  induction w as [|c w IH]; [done|]. intros H. cbn [contains] in H.
  apply orb_false_elim in H as [Hc Hw]. cbn [split]. by rewrite Hc, IH.
Qed.

Lemma split_app_space w s :
  contains " " w = false →
  split " " (w +:+ String " " s) = w :: split " " s.
Proof.
  induction w as [|c w IH]; [done|]. intros H. cbn [contains] in H.
  apply orb_false_elim in H as [Hc Hw].
  change (String c w +:+ String " " s) with (String c (w +:+ String " " s)).
  cbn [split]. by rewrite Hc, IH.
Qed.

Lemma tokens_app_space w s :
  w ≠ "" → contains " " w = false →
  tokens (w +:+ String " " s) = w :: tokens s.
Proof.
  intros Hw Hc. unfold tokens. rewrite split_app_space by done.
  by rewrite filter_cons_True.
Qed.

Lemma tokens_word w : w ≠ "" → contains " " w = false → tokens w = [w].
Proof.
  intros Hw Hc. unfold tokens. rewrite split_space_free by done.
  by rewrite filter_cons_True.
Qed.

Lemma tokens_join ts :
  Forall (λ t, t ≠ "" ∧ contains " " t = false) ts →
  tokens (join " " ts) = ts.
Proof.
  induction 1 as [|t ts [Ht Hc] _ IH]; [done|].
  destruct ts as [|t' ts]; [by apply tokens_word|].
  rewrite join_cons by done. by rewrite tokens_app_space, IH.
Qed.

Lemma tokens_destination path :
  tokens ("[download] Destination: " +:+ path)
  = "[download]" :: "Destination:" :: tokens path.
Proof.
  change ("[download] Destination: " +:+ path)
    with ("[download]" +:+ String " " ("Destination:" +:+ String " " path)).
  by rewrite !tokens_app_space.
Qed.

Lemma extract_data_destination line rest :
  tokens line = "[download]" :: "Destination:" :: rest →
  extract_data line
  = Ok (if decide (last ("Destination:" :: rest) = Some "downloaded")
        then <["status" := "Already Downloaded"]>
               (<["filename" := join " " rest]> (<["status" := "Downloading"]> ∅))
        else <["filename" := join " " rest]> (<["status" := "Downloading"]> ∅)).
Proof.
  intros Ht. rewrite extract_data_tokens, Ht.
  rewrite (decide_True (P := "[download]" = "[download]")) by done.
  rewrite extract_download_cons. cbv zeta.
  by rewrite (decide_True (P := "Destination:" = "Destination:")) by done.
Qed.

(** X2. A destination line never raises, and its filename is what follows
    ['Destination:'] with every run of spaces made one space. *)
Theorem destination_line_filename path :
  ∃ d, extract_data ("[download] Destination: " +:+ path) = Ok d
       ∧ d !! "filename" = Some (join " " (tokens path)).
Proof.
  rewrite (extract_data_destination _ _ (tokens_destination path)).
  eexists. split; [done|]. by split_decide.
Qed.

(** X3. A path of words separated by single spaces is reported as it is. *)
Theorem destination_line_path_unchanged ts :
  Forall (λ t, t ≠ "" ∧ contains " " t = false) ts →
  ∃ d, extract_data ("[download] Destination: " +:+ join " " ts) = Ok d
       ∧ d !! "filename" = Some (join " " ts).
Proof.
  intros Hts.
  rewrite (extract_data_destination _ _ (tokens_destination (join " " ts))).
  rewrite tokens_join by done.
  eexists. split; [done|]. by split_decide.
Qed.

Lemma destination_line_path_unchanged_witness :
  ∃ d, extract_data "[download] Destination: /tmp/my movie.mp4" = Ok d
       ∧ d !! "filename" = Some "/tmp/my movie.mp4".
Proof.
  apply (destination_line_path_unchanged ["/tmp/my"; "movie.mp4"]).
  repeat constructor; discriminate.
Defined.

(** X4. [split] is inverted by [join]. *)
Theorem join_split s : join " " (split " " s) = s.
Proof.
  induction s as [|c s IH]; [done|]. cbn [split].
  pose proof (split_not_nil " " s) as Hne.
  destruct (Ascii.eqb c " ") eqn:Hc.
  - apply Ascii.eqb_eq in Hc as ->. rewrite join_cons by done. by rewrite IH.
  - destruct (split " " s) as [|w ws]; [done|].
    destruct ws as [|w' ws]; cbn [join] in *; by rewrite <- IH.
Qed.

(** X5. A playlist line: index and size are the tokens at positions 2 and 4
    after the header, and a missing one raises. *)
Theorem playlist_line_fields line rest :
  tokens line = "[download]" :: "Downloading" :: "video" :: rest →
  match rest !! 0%nat, rest !! 2%nat with
  | Some playlist_index, Some playlist_size =>
      ∃ d, extract_data line = Ok d
           ∧ d !! "playlist_index" = Some playlist_index
           ∧ d !! "playlist_size" = Some playlist_size
           ∧ d !! "percent" = None ∧ d !! "filename" = None
  | _, _ => extract_data line = Raise IndexError
  end.
Proof.
  intros Ht. rewrite extract_data_tokens, Ht.
  rewrite (decide_True (P := "[download]" = "[download]")) by done.
  rewrite extract_download_cons. cbv zeta.
  rewrite (decide_False (P := "Downloading" = "Destination:")) by done.
  change (contains "%" "Downloading") with false. cbv iota.
  rewrite (decide_True (P := "Downloading" = "Downloading")) by done.
  cbn [lookup list_lookup].
  rewrite (decide_True (P := "video" = "video")) by done.
  destruct (rest !! 0%nat) as [i|]; [|done].
  destruct (rest !! 2%nat) as [n|]; [|done].
  eexists. split; [done|]. by split_decide.
Qed.

Lemma playlist_line_fields_witness :
  ∃ d, extract_data "[download] Downloading video 3 of 7" = Ok d
       ∧ d !! "playlist_index" = Some "3"
       ∧ d !! "playlist_size" = Some "7"
       ∧ d !! "percent" = None ∧ d !! "filename" = None.
Proof.
  apply (playlist_line_fields "[download] Downloading video 3 of 7" ["3"; "of"; "7"]).
  reflexivity.
Defined.

(** X6. Under a header other than ['[download]'] the rest of the line is not
    read: the event is the status alone, and nothing raises. *)
Theorem other_headers_status_only line header rest :
  tokens line = header :: rest →
  header ≠ "[download]" →
  extract_data line
  = Ok {[ "status" := if decide (header = "[ffmpeg]")
                      then "Post Processing" else "Pre Processing" ]}.
Proof.
  intros Ht Hh. rewrite extract_data_tokens, Ht.
  rewrite (decide_False (P := header = "[download]")) by done.
  by split_decide.
Qed.

Lemma other_headers_status_only_witness :
  extract_data "[ffmpeg] Destination: 100% Downloading video"
  = Ok {[ "status" := "Post Processing" ]}.
Proof.
  apply (other_headers_status_only _ "[ffmpeg]"
           ["Destination:"; "100%"; "Downloading"; "video"]);
    [reflexivity|discriminate].
Defined.

End Lines.

(** ** What a merge writes *)

Section MergeMore.

Lemma basename_no_slash p : contains "/" (basename p) = false.
Proof.
  induction p as [|c p IH]; [done|]. cbn [basename].
  destruct (contains "/" p) eqn:Hp; [done|].
  destruct (Ascii.eqb c "/") eqn:Hc; [done|].
  cbn [contains]. by rewrite Hc, Hp.
Qed.

(** X7. Merging an event with a filename appends the full path to the file
    list and stores the base name, which has no slash. *)
Theorem merge_filename self (data : gmap string string) path :
  data !! "filename" = Some path →
  _files_list (_update_data self data).1 = _files_list self ++ [path]
  ∧ _data (_update_data self data).1 !! "filename" = Some (Some (basename path))
  ∧ contains "/" (basename path) = false.
Proof.
  intros Hf. rewrite _update_data_spec. cbn [fst _files_list _data].
  rewrite Hf, lookup_merged, Hf. split; [done|]. split; [done|].
  apply basename_no_slash.
Qed.

Lemma merge_filename_witness :
  let self := (_update_data (__init__ true true)
                 (<["filename" := "/tmp/a.mp4"]> (<["status" := "Downloading"]> ∅))).1 in
  let data : gmap string string := <["filename" := "/home/user/b c.mp4"]> ∅ in
  _files_list (_update_data self data).1 = _files_list self ++ ["/home/user/b c.mp4"]
  ∧ _data (_update_data self data).1 !! "filename"
    = Some (Some (basename "/home/user/b c.mp4"))
  ∧ contains "/" (basename "/home/user/b c.mp4") = false.
Proof.
  apply (merge_filename _ (<["filename" := "/home/user/b c.mp4"]> ∅)).
  reflexivity.
Defined.

(** X8. Merging overwrites every field the event mentions: a field other than
    the filename and the status holds the event's value afterwards, and so
    does the status unless it is ['Already Downloaded']. *)
Theorem merge_overwrites_mentioned_fields self (data : gmap string string) k v :
  data !! k = Some v →
  k ≠ "filename" →
  ¬ (k = "status" ∧ v = "Already Downloaded") →
  _data (_update_data self data).1 !! k = Some (Some v).
Proof.
  intros Hk Hf Hs. rewrite _update_data_spec. cbn [fst _data].
  rewrite lookup_merged, Hk. unfold stored.
  rewrite decide_False by done.
  destruct (decide (k = "status")); [|done].
  destruct (decide (v = "Already Downloaded")); [|done]. naive_solver.
Qed.

Lemma merge_overwrites_mentioned_fields_witness :
  let self := (_update_data (__init__ true true) (<["percent" := "42.0%"]> ∅)).1 in
  _data (_update_data self (<["percent" := "43.5%"]> ∅)).1 !! "percent"
  = Some (Some "43.5%").
Proof.
  apply (merge_overwrites_mentioned_fields _ (<["percent" := "43.5%"]> ∅));
    [reflexivity|discriminate|].
  intros [? _]. discriminate.
Defined.

(** X9. [_update_data] returns [True] exactly when the event has a key; it
    changes the return code only on an ['Already Downloaded'] status, and the
    file list only on a filename. *)
Theorem merge_reports_and_side_effects self (data : gmap string string) :
  (_update_data self data).2 = bool_decide (data ≠ ∅)
  ∧ (data !! "status" ≠ Some "Already Downloaded" →
     _return_code (_update_data self data).1 = _return_code self)
  ∧ (data !! "filename" = None →
     _files_list (_update_data self data).1 = _files_list self).
Proof.
  rewrite _update_data_spec. cbn [fst snd _return_code _files_list].
  split; [done|]. split.
  - intros Hs. by rewrite decide_False.
  - intros ->. cbn. by rewrite app_nil_r.
Qed.

Lemma merge_reports_and_side_effects_witness :
  let self := __init__ true true in
  let data : gmap string string := <["percent" := "42.0%"]> ∅ in
  (_update_data self data).2 = bool_decide (data ≠ ∅)
  ∧ _return_code (_update_data self data).1 = _return_code self
  ∧ _files_list (_update_data self data).1 = _files_list self.
Proof.
  destruct (merge_reports_and_side_effects (__init__ true true)
              (<["percent" := "42.0%"]> ∅)) as (H1 & H2 & H3).
  split; [exact H1|]. split; [apply H2; discriminate|apply H3; reflexivity].
Defined.

Lemma dom_merged old (data : gmap string string) :
  dom (merged old data) = dom data ∪ dom old.
Proof.
  apply set_eq. intros k. rewrite elem_of_union, !elem_of_dom, lookup_merged.
  destruct (data !! k) eqn:Hk.
  - split; [intros _; left; by eexists|by eexists].
  - split; [by right|]. intros [[? ?]|?]; done.
Qed.

End MergeMore.

(** ** What a run keeps and returns *)

Section Runs.




Lemma download_body_Raise_state self c e :
  extract_data (_read c).1 = Raise e →
  download_body self c = (stop_here c BeforeUpdate self, Raise e).
Proof.
  intros Hd. unfold download_body.
  destruct (_read c) as [stdout stderr]. cbn [fst] in Hd. by rewrite Hd.
Qed.

Lemma stop_here_fields c p self :
  data_hook (stop_here c p self) = data_hook self
  ∧ logger (stop_here c p self) = logger self
  ∧ _files_list (stop_here c p self) = _files_list self
  ∧ _data (stop_here c p self) = _data self
  ∧ hooked (stop_here c p self) = hooked self
  ∧ logged (stop_here c p self) = logged self.
Proof. unfold stop_here, stop. by destruct (decide _), self. Qed.

(** An invariant of the object that every turn keeps, whether it returns
    or raises, holds after the run. *)
Lemma download_loop_ind (P : t → Prop) proc : ∀ self,
  (∀ self c, P self → P (download_body self c).1) →
  P self → P (download_loop self proc).1.
Proof.
  induction proc as [|c proc IH]; intros self Hstep HP; [done|].
  cbn [download_loop]. pose proof (Hstep self c HP) as HP'.
  destruct (download_body self c) as [self' [[]|e]]; cbn [fst] in *;
    [by apply IH|done].
Qed.

Lemma download_body_cases self c :
  (∃ data, extract_data (_read c).1 = Ok data
     ∧ (download_body self c).1
       = mk (data_hook self) (logger self)
           (body_return_code c (_return_code self))
           (_files_list self ++ option_list (data !! "filename"))
           (merged (_data self) data)
           (hooked self
            ++ if data_hook self && nonblank c then [merged (_data self) data] else [])
           (logged self
            ++ if logger self && reads_error c then [(_read c).2] else []))
  ∨ (∃ e, extract_data (_read c).1 = Raise e
       ∧ (download_body self c).1 = stop_here c BeforeUpdate self).
Proof.
  destruct (extract_data (_read c).1) as [data|e] eqn:Hd.
  - left. exists data. split; [done|]. by rewrite (download_body_Ok _ _ _ Hd).
  - right. exists e. split; [done|]. by rewrite (download_body_Raise_state _ _ _ Hd).
Qed.

(** X10. The file list only grows: what it held before a run is a prefix of
    what it holds after, whether the run returns or raises. *)
Theorem files_list_append_only self proc :
  _files_list self `prefix_of` _files_list (download self proc).1.
Proof.
  unfold download.
  apply (download_loop_ind (λ s, _files_list self `prefix_of` _files_list s)).
  - intros s c Hs.
    destruct (download_body_cases s c) as [(data & _ & ->)|(e & _ & ->)].
    + cbn [_files_list]. etrans; [done|]. by apply prefix_app_r.
    + by rewrite (proj1 (proj2 (proj2 (stop_here_fields c BeforeUpdate s)))).
  - by destruct self.
Qed.

(** X11. The progress state keeps its eight keys through every run. *)
Theorem progress_keys_invariant self proc :
  dom (_data self) = list_to_set data_keys →
  dom (_data (download self proc).1) = list_to_set data_keys.
Proof.
  intros Hdom. unfold download.
  apply (download_loop_ind (λ s, dom (_data s) = list_to_set data_keys)).
  - intros s c Hs.
    destruct (download_body_cases s c) as [(data & Hd & ->)|(e & _ & ->)].
    + cbn [_data]. rewrite dom_merged, Hs.
      apply subseteq_union_1_L. by eapply extract_data_dom.
    + by rewrite (proj1 (proj2 (proj2 (proj2 (stop_here_fields c BeforeUpdate s))))).
  - by destruct self.
Qed.

Lemma progress_keys_invariant_witness :
  dom (_data (download (__init__ true true)
                [mk_cycle "[download] Destination: a.mp4" "" None;
                 mk_cycle "[download]" "" None]).1)
  = list_to_set data_keys.
Proof.
  apply progress_keys_invariant.
  unfold __init__, data_keys. cbn [_data]. by rewrite dom_list_to_map_L.
Defined.



Lemma body_return_code_valid c rc :
  rc ∈ [OK; ERROR; STOPPED; ALREADY] →
  body_return_code c rc ∈ [OK; ERROR; STOPPED; ALREADY].
Proof.
  intros Hrc. unfold body_return_code.
  destruct (stopped_at c BeforeUpdate), (reads_already c),
    (stopped_at c BeforeErrCheck), (reads_error c), (stopped_at c AfterErrCheck);
    try done;
    repeat first [apply list_elem_of_here | apply list_elem_of_further].
Qed.

(** X13. Whatever code the object held before, [download] returns one of the four
    codes. *)
Theorem download_returns_a_code self proc rc :
  (download self proc).2 = Ok rc → rc ∈ [OK; ERROR; STOPPED; ALREADY].
Proof.
  intros Hrc. pose proof (download_loop_classified _ _ _ Hrc) as Hc.
  unfold download in Hrc. rewrite download_loop_return_code in Hrc by done.
  injection Hrc as <-. cbn [download_start set_return_code _return_code].
  assert (∀ rc0, rc0 ∈ [OK; ERROR; STOPPED; ALREADY] →
                 foldl (λ rc c, body_return_code c rc) rc0 proc
                 ∈ [OK; ERROR; STOPPED; ALREADY]) as Hfold.
  { clear Hc. induction proc as [|c proc IH]; intros rc0 Hrc0; [done|].
    cbn [foldl]. by apply IH, body_return_code_valid. }
  apply Hfold, list_elem_of_here.
Qed.

Lemma download_returns_a_code_witness :
  ERROR ∈ [OK; ERROR; STOPPED; ALREADY].
Proof.
  apply (download_returns_a_code (set_return_code (__init__ true true) 7)
           [mk_cycle "" "ERROR: unable to download video data" None]).
  reflexivity.
Defined.



End Runs.

(** ** What the callbacks receive *)

Section Callbacks.

Lemma download_loop_logged proc : ∀ self,
  Forall (λ c, classified c = true) proc →
  logged (download_loop self proc).1
  = logged self
    ++ if logger self
       then omap (λ c, if reads_error c then Some (_read c).2 else None) proc
       else [].
Proof.
  induction proc as [|c proc IH]; intros self Hc.
  { cbn. destruct (logger self); by rewrite app_nil_r. }
  apply Forall_cons in Hc as [[data Hd]%classified_Ok Hc].
  cbn [download_loop]. rewrite (download_body_Ok _ _ _ Hd), IH by done.
  cbn [logged logger omap list_omap].
  destruct (logger self), (reads_error c); cbn [andb];
    by rewrite <- ?(assoc_L (++)), ?app_nil_r.
Qed.

(** X15. In a run that returns, the logger is called with exactly the texts read
    on stderr, in order; without a logger they are dropped. *)
Theorem stderr_lines_logged self proc rc :
  (download self proc).2 = Ok rc →
  logged (download self proc).1
  = logged self
    ++ if logger self
       then omap (λ c, if reads_error c then Some (_read c).2 else None) proc
       else [].
Proof.
  intros Hrc%download_loop_classified. unfold download.
  rewrite download_loop_logged by done. by destruct self.
Qed.

Lemma stderr_lines_logged_witness :
  logged (download (__init__ true true)
            [mk_cycle "" "WARNING: one  " None;
             mk_cycle "[download] 100% of 10.00MiB" "ERROR: not read" None;
             mk_cycle "" "" None;
             mk_cycle "" "ERROR: two" None]).1
  = [] ++ ["WARNING: one"; "ERROR: two"].
Proof.
  exact (stderr_lines_logged (__init__ true true)
           [mk_cycle "" "WARNING: one  " None;
            mk_cycle "[download] 100% of 10.00MiB" "ERROR: not read" None;
            mk_cycle "" "" None;
            mk_cycle "" "ERROR: two" None] ERROR eq_refl).
Defined.

Lemma blank_turn_empty_event c data :
  extract_data (_read c).1 = Ok data → nonblank c = false → data = ∅.
Proof.
  intros Hd Hn. apply (extract_data_empty_iff _ _ Hd).
  rewrite nonblank_tokens in Hn. by apply bool_decide_eq_false, dec_stable in Hn.
Qed.

Lemma download_loop_last_hooked proc : ∀ self,
  Forall (λ c, classified c = true) proc →
  data_hook self = true →
  last (hooked self) = Some (_data self) →
  last (hooked (download_loop self proc).1) = Some (_data (download_loop self proc).1).
Proof.
  induction proc as [|c proc IH]; intros self Hc Hh Hl; [done|].
  apply Forall_cons in Hc as [[data Hd]%classified_Ok Hc].
  cbn [download_loop]. rewrite (download_body_Ok _ _ _ Hd).
  apply IH; [done|done|]. cbn [hooked _data]. rewrite Hh. cbn [andb].
  destruct (nonblank c) eqn:Hn; [by rewrite last_snoc|].
  rewrite (blank_turn_empty_event _ _ Hd Hn), merged_empty. by rewrite app_nil_r.
Qed.

(** X16. In a run that returns and reads at least one line of stdout that is
    not blank, the last state the observer was called with is the state the
    object ends with. *)
Theorem observer_last_sees_final_state self proc rc :
  (download self proc).2 = Ok rc →
  data_hook self = true →
  Exists (λ c, nonblank c = true) proc →
  last (hooked (download self proc).1) = Some (_data (download self proc).1).
Proof.
  intros Hc%download_loop_classified Hh Hex. unfold download in *.
  assert (data_hook (download_start self) = true) as Hh' by by destruct self.
  revert Hc Hh'. generalize (download_start self). clear Hh self.
  induction Hex as [c proc Hn|c proc Hex IH]; intros self Hc Hh.
  - apply Forall_cons in Hc as [[data Hd]%classified_Ok Hc].
    cbn [download_loop]. rewrite (download_body_Ok _ _ _ Hd).
    apply download_loop_last_hooked; [done|done|].
    cbn [hooked _data]. rewrite Hh, Hn. cbn [andb]. by rewrite last_snoc.
  - apply Forall_cons in Hc as [[data Hd]%classified_Ok Hc].
    cbn [download_loop]. rewrite (download_body_Ok _ _ _ Hd). by apply IH.
Qed.

Lemma observer_last_sees_final_state_witness :
  let run := download (__init__ true true)
               [mk_cycle "[download]  42.0% of 10.00MiB at 1.20MiB/s ETA 00:10" "" None;
                mk_cycle "" "" None;
                mk_cycle "" "WARNING: slow" None] in
  last (hooked run.1) = Some (_data run.1).
Proof.
  apply (observer_last_sees_final_state _ _ ERROR).
  - reflexivity.
  - reflexivity.
  - apply Exists_cons_hd. reflexivity.
Defined.

End Callbacks.

(** ** What [clear_dash] leaves *)

Section ClearDashMore.

Implicit Types fs : gmap string bool.

Lemma clear_dash_loop_subseteq files : ∀ fs, (clear_dash_loop files fs).1 ⊆ fs.
Proof.
  induction files as [|f files IH]; intros fs; [done|].
  cbn [clear_dash_loop]. unfold os_path_exists, os_remove.
  destruct (fs !! f) as [[]|] eqn:Hf.
  - rewrite bool_decide_eq_true_2 by eauto.
    etrans; [apply IH|]. apply delete_subseteq.
  - by rewrite bool_decide_eq_true_2 by eauto.
  - rewrite bool_decide_eq_false_2 by (by intros [? ?]). apply IH.
Qed.

Lemma clear_dash_loop_unlisted files : ∀ fs p,
  p ∉ files → (clear_dash_loop files fs).1 !! p = fs !! p.
Proof.
  induction files as [|f files IH]; intros fs p Hp; [done|].
  apply not_elem_of_cons in Hp as [Hne Hp].
  cbn [clear_dash_loop]. unfold os_path_exists, os_remove.
  destruct (fs !! f) as [[]|] eqn:Hf.
  - rewrite bool_decide_eq_true_2 by eauto.
    by rewrite IH, lookup_delete_ne.
  - by rewrite bool_decide_eq_true_2 by eauto.
  - rewrite bool_decide_eq_false_2 by (by intros [? ?]). by apply IH.
Qed.

(** X17. [clear_dash] only deletes, and only paths of the file list: whether it
    returns or raises, no path appears or changes, and a path that is not in
    the list is left as it is. *)
Theorem clear_dash_only_deletes_listed self fs :
  (clear_dash self fs).1 ⊆ fs
  ∧ ∀ p, p ∉ _files_list self → (clear_dash self fs).1 !! p = fs !! p.
Proof.
  split; [apply clear_dash_loop_subseteq|].
  intros p. apply clear_dash_loop_unlisted.
Qed.

Lemma clear_dash_only_deletes_listed_witness :
  let self := set_files_list (__init__ true true) ["/tmp/v.mp4"; "/tmp/a.m4a"] in
  let fs : gmap string bool := {[ "/tmp/v.mp4" := true; "/tmp/keep.txt" := true ]} in
  (clear_dash self fs).1 ⊆ fs
  ∧ (clear_dash self fs).1 !! "/tmp/keep.txt" = fs !! "/tmp/keep.txt".
Proof.
  destruct (clear_dash_only_deletes_listed
              (set_files_list (__init__ true true) ["/tmp/v.mp4"; "/tmp/a.m4a"])
              {[ "/tmp/v.mp4" := true; "/tmp/keep.txt" := true ]}) as [H1 H2].
  split; [exact H1|]. apply H2.
  intros [[=]|[[=]|[]%elem_of_nil]%elem_of_cons]%elem_of_cons.
Defined.

Lemma clear_dash_loop_Ok_gone files : ∀ fs fs',
  clear_dash_loop files fs = (fs', Ok ()) → ∀ p, p ∈ files → fs' !! p = None.
Proof.
  induction files as [|f files IH]; intros fs fs' Hr p Hp.
  { by apply elem_of_nil in Hp. }
  pose proof (clear_dash_loop_subseteq files) as Hsub.
  cbn [clear_dash_loop] in Hr. unfold os_path_exists, os_remove in Hr.
  destruct (fs !! f) as [[]|] eqn:Hf.
  - rewrite bool_decide_eq_true_2 in Hr by eauto.
    apply elem_of_cons in Hp as [->|Hp]; [|by eapply IH].
    specialize (Hsub (delete f fs)). rewrite Hr in Hsub. cbn [fst] in Hsub.
    eapply lookup_weaken_None; [|done]. apply lookup_delete_eq.
  - by rewrite bool_decide_eq_true_2 in Hr by eauto.
  - rewrite bool_decide_eq_false_2 in Hr by (by intros [? ?]).
    apply elem_of_cons in Hp as [->|Hp]; [|by eapply IH].
    specialize (Hsub fs). rewrite Hr in Hsub. cbn [fst] in Hsub.
    by eapply lookup_weaken_None.
Qed.

Lemma clear_dash_loop_absent files : ∀ fs,
  (∀ p, p ∈ files → fs !! p = None) → clear_dash_loop files fs = (fs, Ok ()).
Proof.
  induction files as [|f files IH]; intros fs Hf; [done|].
  cbn [clear_dash_loop]. unfold os_path_exists.
  rewrite (Hf f) by apply list_elem_of_here.
  rewrite bool_decide_eq_false_2 by (by intros [? ?]).
  apply IH. intros p Hp. by apply Hf, list_elem_of_further.
Qed.

(** X18. After a [clear_dash] that returned, no path of the list exists, and a
    second [clear_dash] changes nothing and returns as well. *)
Theorem clear_dash_twice self fs fs' :
  clear_dash self fs = (fs', Ok ()) →
  (∀ p, p ∈ _files_list self → os_path_exists fs' p = false)
  ∧ clear_dash self fs' = (fs', Ok ()).
Proof.
  intros Hr. pose proof (clear_dash_loop_Ok_gone _ _ _ Hr) as Hgone. split.
  - intros p Hp. unfold os_path_exists. rewrite (Hgone p Hp).
    by rewrite bool_decide_eq_false_2 by (by intros [? ?]).
  - by apply clear_dash_loop_absent.
Qed.

Lemma clear_dash_twice_witness :
  let self := set_files_list (__init__ true true) ["/tmp/v.mp4"; "/tmp/a.m4a"] in
  let fs' : gmap string bool := {[ "/tmp/keep.txt" := false ]} in
  (∀ p, p ∈ _files_list self → os_path_exists fs' p = false)
  ∧ clear_dash self fs' = (fs', Ok ()).
Proof.
  apply (clear_dash_twice
           (set_files_list (__init__ true true) ["/tmp/v.mp4"; "/tmp/a.m4a"])
           {[ "/tmp/v.mp4" := true; "/tmp/keep.txt" := false ]}).
  vm_compute. reflexivity.
Defined.

End ClearDashMore.

(** ** When the parser returns, and what *)

Section ParserMore.

Import ArgumentBuilder.

Variable fix_path : string → string.
Variable is_dash : string → bool.
Variable o : options.

Lemma parse_fresh_build :
  parse_fresh fix_path is_dash o = build fix_path is_dash o.
Proof.
  unfold parse_fresh. rewrite parse_returns_build.
  by destruct (build fix_path is_dash o).
Qed.

(** X19. With every optional field at its default, the argument list is the
    progress flag and the output flag with its template, nothing else. *)
Theorem minimal_arguments_at_defaults :
  at_defaults o →
  parse_fresh fix_path is_dash o
  = Ok ("--newline" :: "-o" :: template fix_path o).
Proof.
  intros (H1&H2&H3&H4&H5&H6&H7&H8&H9&H10&H11&H12&H13&H14&H15&H16&H17&H18&H19
          &H20&H21&H22&H23&H24).
  rewrite parse_fresh_build.
  unfold build, video, subtitles, audio, progress, output, auth, connection,
    playlist, filesystem, extra.
  rewrite H1, H2, H3, H4, H5, H6, H7, H8, H9, H10, H11, H12, H13, H14, H15,
    H16, H17, H18, H19, H20, H21, H22, H23, H24.
  rewrite !bool_decide_eq_false_2 by (intros H; by apply H).
  cbn. by rewrite !app_nil_r.
Qed.

Lemma getitem_Ok (d : gmap string string) k :
  returns (getitem d k) = bool_decide (is_Some (d !! k)).
Proof.
  unfold getitem. symmetry. destruct (d !! k); cbn [returns].
  - apply bool_decide_eq_true_2. by eexists.
  - apply bool_decide_eq_false_2. by intros [? ?].
Qed.

Lemma getitem_Raise (d : gmap string string) k e :
  getitem d k = Raise e → e = KeyError.
Proof. unfold getitem. destruct (d !! k); by intros [= <-]. Qed.

Lemma video_outcome :
  returns (video is_dash o)
  = (if bool_decide (video_format o ≠ "default") then
       bool_decide (is_Some (VIDEO_FORMATS !! video_format o))
       && (if is_dash (video_format o) && is_dash (dash_audio_format o)
           then bool_decide (is_Some (DASH_AUDIO_FORMATS !! dash_audio_format o))
           else true)
     else true)
  ∧ ∀ e, video is_dash o = Raise e → e = KeyError.
Proof.
  unfold video, format_code. rewrite <- !getitem_Ok.
  destruct (getitem VIDEO_FORMATS (video_format o)) as [?|e1] eqn:E1;
    destruct (getitem DASH_AUDIO_FORMATS (dash_audio_format o)) as [?|e2] eqn:E2;
    try apply getitem_Raise in E1 as ->; try apply getitem_Raise in E2 as ->;
    destruct (bool_decide (video_format o ≠ "default")),
      (is_dash (video_format o)), (is_dash (dash_audio_format o));
    cbn; split; try done; by intros e [= <-].
Qed.

Lemma subtitles_outcome :
  returns (subtitles o)
  = (if write_subs o then bool_decide (is_Some (SUBS_LANG !! subs_lang o)) else true)
  ∧ ∀ e, subtitles o = Raise e → e = KeyError.
Proof.
  unfold subtitles. rewrite <- !getitem_Ok.
  destruct (getitem SUBS_LANG (subs_lang o)) as [?|e1] eqn:E1;
    try apply getitem_Raise in E1 as ->;
    destruct (write_subs o); cbn; split; try done; by intros e [= <-].
Qed.

Lemma audio_outcome :
  returns (audio o)
  = (if to_audio o && bool_decide (audio_quality o ≠ "mid")
     then bool_decide (is_Some (AUDIO_QUALITY !! audio_quality o)) else true)
  ∧ ∀ e, audio o = Raise e → e = KeyError.
Proof.
  unfold audio. rewrite <- !getitem_Ok.
  destruct (getitem AUDIO_QUALITY (audio_quality o)) as [?|e1] eqn:E1;
    try apply getitem_Raise in E1 as ->;
    destruct (to_audio o), (bool_decide (audio_quality o ≠ "mid"));
    cbn; split; try done; by intros e [= <-].
Qed.

Lemma build_outcome :
  returns (build fix_path is_dash o) = lookups_succeed is_dash o
  ∧ ∀ e, build fix_path is_dash o = Raise e → e = KeyError.
Proof.
  destruct video_outcome as [Hv Hve], subtitles_outcome as [Hs Hse],
    audio_outcome as [Ha Hae].
  unfold lookups_succeed, build. rewrite <- Hv, <- Hs, <- Ha.
  destruct (video is_dash o) as [?|e1]; cbn; [|split; [done|]; intros e [= <-]; eauto].
  destruct (subtitles o) as [?|e2]; cbn; [|split; [done|]; intros e [= <-]; eauto].
  destruct (audio o) as [?|e3]; cbn; [done|split; [done|]; intros e [= <-]; eauto].
Qed.

(** X20. [parse] returns exactly when every name it looks up is in its table:
    the video format unless it is ['default'], the DASH audio format when both
    formats are DASH, the subtitles language when subtitles are written, the
    audio quality when audio is extracted and the quality is not ['mid'].
    Otherwise it raises [KeyError]. *)
Theorem parse_returns_iff_lookups_succeed :
  if lookups_succeed is_dash o
  then ∃ args, parse_fresh fix_path is_dash o = Ok args
  else parse_fresh fix_path is_dash o = Raise KeyError.
Proof.
  rewrite parse_fresh_build. destruct build_outcome as [<- He].
  destruct (build fix_path is_dash o) as [args|e]; cbn; [by eexists|].
  by rewrite (He e).
Qed.

Lemma run_seq_emits {A} (m : method ()) (k : method A) args l :
  emits m (Ok args) → run (m ;; k) l = run k (l ++ args).
Proof. intros Hm. destruct m as [f]. specialize (Hm l). cbn in *. by rewrite Hm. Qed.

Lemma run_parse args l :
  build fix_path is_dash o = Ok args →
  run (parse fix_path is_dash o) l = (l ++ args, Ok (l ++ args)).
Proof.
  unfold build. intros Hb.
  pose proof (video_emitted is_dash o) as Hv.
  pose proof (subtitles_emitted o) as Hs.
  pose proof (audio_emitted o) as Ha.
  destruct (video is_dash o) as [v|]; [|done].
  destruct (subtitles o) as [s|]; [|done].
  destruct (audio o) as [a|]; [|done]. cbn [mbind result_bind] in Hb.
  injection Hb as <-. unfold parse.
  rewrite (run_seq_emits _ _ _ _ progress_emitted).
  rewrite (run_seq_emits _ _ _ _ (output_emitted fix_path o)).
  rewrite (run_seq_emits _ _ _ _ (auth_emitted o)).
  rewrite (run_seq_emits _ _ _ _ (connection_emitted o)).
  rewrite (run_seq_emits _ _ _ _ Hv).
  rewrite (run_seq_emits _ _ _ _ (playlist_emitted o)).
  rewrite (run_seq_emits _ _ _ _ (filesystem_emitted o)).
  rewrite (run_seq_emits _ _ _ _ Hs).
  rewrite (run_seq_emits _ _ _ _ Ha).
  rewrite (run_seq_emits _ _ _ _ (extra_emitted o)).
  cbn [run options_list]. unfold progress, output.
  by rewrite <- !(assoc_L (++)).
Qed.

(** X21. [parse] appends to the list the parser already holds: on a parser whose
    list is [l] it returns [l] followed by the arguments, so a second call on
    the same parser returns every argument twice. *)
Theorem parse_twice_doubles args :
  parse_fresh fix_path is_dash o = Ok args →
  run (parse fix_path is_dash o ;; parse fix_path is_dash o) []
  = (args ++ args, Ok (args ++ args)).
Proof.
  rewrite parse_fresh_build. intros Hb.
  pose proof (run_parse args [] Hb) as H1.
  pose proof (run_parse args args Hb) as H2.
  destruct (parse fix_path is_dash o) as [f]. cbn in *. by rewrite H1, H2.
Qed.

(** X22. When [parse] returns, the list starts with the progress flag and the
    output flag and ends with the words of the extra arguments. *)
Theorem parse_frame args :
  parse_fresh fix_path is_dash o = Ok args →
  ∃ middle, args = "--newline" :: "-o" :: middle ++ split_ws (cmd_args o).
Proof.
  rewrite parse_fresh_build. unfold build.
  destruct (video is_dash o) as [v|]; [|done].
  destruct (subtitles o) as [s|]; [|done].
  destruct (audio o) as [a|]; [|done]. cbn. intros [= <-].
  unfold extra. eexists. by rewrite !(assoc_L (++)).
Qed.

End ParserMore.

(** ** The extra arguments and the command line *)

Section Words.

Import ArgumentBuilder.

Lemma rev_app_nonempty s : ∀ acc, acc ≠ "" → String.rev_app s acc ≠ "".
Proof. induction s as [|c s IH]; intros acc Hacc; [done|]. by apply IH. Qed.

Lemma rev_cons_nonempty c w : String.rev (String c w) ≠ "".
Proof. unfold String.rev. cbn [String.rev_app]. by apply rev_app_nonempty. Qed.

Lemma split_ws_go_nonempty s : ∀ w, Forall (λ t, t ≠ "") (split_ws_go w s).
Proof.
  induction s as [|c s IH]; intros w; cbn [split_ws_go].
  - destruct w; [done|]. constructor; [apply rev_cons_nonempty|done].
  - destruct (isspace c); [|apply IH].
    destruct w; [apply IH|]. constructor; [apply rev_cons_nonempty|apply IH].
Qed.

Lemma split_ws_whitespace s : only_whitespace s = true → split_ws s = [].
Proof.
  unfold split_ws. induction s as [|c s IH]; [done|]. cbn [only_whitespace split_ws_go].
  intros [-> Hs]%andb_prop. by apply IH.
Qed.

(** X23. The extra arguments never raise and are never empty strings; a
    [cmd_args] of whitespace only adds no argument. *)
Theorem extra_arguments_are_words (o : options) l :
  ∃ args, run (_set_other_options o) l = (l ++ args, Ok ())
    ∧ Forall (λ t, t ≠ "") args
    ∧ (only_whitespace (cmd_args o) = true → args = []).
Proof.
  exists (extra o). split; [apply (extra_emitted o l)|]. unfold extra. split.
  - apply split_ws_go_nonempty.
  - apply split_ws_whitespace.
Qed.

Lemma extra_arguments_are_words_witness :
  ∃ args,
    run (_set_other_options
           {| save_path := ""; output_format := "id"; output_template := "";
              restrict_filenames := false; username := ""; password := "";
              video_password := ""; retries := 10; proxy := ""; user_agent := "";
              referer := ""; video_format := "default"; dash_audio_format := "none";
              playlist_start := 1; playlist_end := 0; max_downloads := 0;
              ignore_errors := false; write_description := false;
              write_info := false; write_thumbnail := false; min_filesize := "0";
              max_filesize := "0"; write_all_subs := false;
              write_auto_subs := false; write_subs := false;
              subs_lang := "English"; embed_subs := false; to_audio := false;
              audio_format := "mp3"; audio_quality := "mid"; keep_video := false;
              cmd_args := "   " |}) ["--newline"]
    = (["--newline"] ++ args, Ok ())
    ∧ Forall (λ t, t ≠ "") args ∧ args = [].
Proof.
  destruct (extra_arguments_are_words
    {| save_path := ""; output_format := "id"; output_template := "";
       restrict_filenames := false; username := ""; password := "";
       video_password := ""; retries := 10; proxy := ""; user_agent := "";
       referer := ""; video_format := "default"; dash_audio_format := "none";
       playlist_start := 1; playlist_end := 0; max_downloads := 0;
       ignore_errors := false; write_description := false;
       write_info := false; write_thumbnail := false; min_filesize := "0";
       max_filesize := "0"; write_all_subs := false;
       write_auto_subs := false; write_subs := false;
       subs_lang := "English"; embed_subs := false; to_audio := false;
       audio_format := "mp3"; audio_quality := "mid"; keep_video := false;
       cmd_args := "   " |} ["--newline"]) as (args & H1 & H2 & H3).
  exists args. split; [exact H1|]. split; [exact H2|]. apply H3. reflexivity.
Defined.

End Words.

Section CommandLine.

Import ArgumentBuilder.

Variable fix_path : string → string.
Variable is_dash : string → bool.
Variable o : options.

Lemma build_frame args :
  build fix_path is_dash o = Ok args →
  ∃ middle, args = "--newline" :: "-o" :: middle ++ split_ws (cmd_args o).
Proof.
  unfold build.
  destruct (video is_dash o) as [v|]; [|done].
  destruct (subtitles o) as [s|]; [|done].
  destruct (audio o) as [a|]; [|done]. cbn. intros [= <-].
  unfold extra. eexists. by rewrite !(assoc_L (++)).
Qed.

(** X24. The command line of the process: the interpreter and the path of
    youtube-dl (the path alone on Windows), then the progress flag first among
    the options, and the URL last, after the extra arguments. *)
Theorem command_line_frame (nt : bool) youtubedl_path url args :
  parse_fresh fix_path is_dash o = Ok args →
  ∃ middle,
    _get_cmd nt youtubedl_path url args
    = (if nt then [youtubedl_path] else ["python"; youtubedl_path])
      ++ "--newline" :: "-o" :: middle ++ split_ws (cmd_args o) ++ [url].
Proof.
  rewrite parse_fresh_build. intros [middle ->]%build_frame.
  exists middle. unfold _get_cmd. destruct nt; cbn; by rewrite <- !(assoc_L (++)).
Qed.

End CommandLine.

Section ParserWitnesses.

Import ArgumentBuilder.

Lemma minimal_arguments_at_defaults_witness :
  parse_fresh (λ p, p +:+ "/") (λ _, false) defaults
  = Ok ("--newline" :: "-o" :: template (λ p, p +:+ "/") defaults).
Proof.
  apply minimal_arguments_at_defaults. repeat split.
Defined.

Lemma command_line_frame_witness :
  ∃ middle,
    _get_cmd false "/usr/bin/youtube-dl" "http://example.com/v"
      ["--newline"; "-o"; "/home/user/%(title)s.%(ext)s"]
    = ["python"; "/usr/bin/youtube-dl"]
      ++ "--newline" :: "-o" :: middle ++ split_ws (cmd_args defaults)
         ++ ["http://example.com/v"].
Proof.
  apply (command_line_frame (λ p, p +:+ "/") (λ _, false) defaults false).
  reflexivity.
Defined.

Lemma parse_twice_doubles_witness :
  run (parse (λ p, p +:+ "/") (λ _, false) defaults ;;
       parse (λ p, p +:+ "/") (λ _, false) defaults) []
  = (["--newline"; "-o"; "/home/user/%(title)s.%(ext)s"]
     ++ ["--newline"; "-o"; "/home/user/%(title)s.%(ext)s"],
     Ok (["--newline"; "-o"; "/home/user/%(title)s.%(ext)s"]
         ++ ["--newline"; "-o"; "/home/user/%(title)s.%(ext)s"])).
Proof.
  apply (parse_twice_doubles (λ p, p +:+ "/") (λ _, false) defaults).
  reflexivity.
Defined.

Lemma parse_frame_witness :
  ∃ middle,
    ["--newline"; "-o"; "/home/user/%(title)s.%(ext)s"]
    = "--newline" :: "-o" :: middle ++ split_ws (cmd_args defaults).
Proof.
  apply (parse_frame (λ p, p +:+ "/") (λ _, false) defaults).
  reflexivity.
Defined.

End ParserWitnesses.
